(** * pytorch-lightning: hyper-parameter parsing helpers and the sharded
      native-AMP precision plugin

    A shallow embedding of
      - [pytorch_lightning/utilities/parsing.py]
      - [pytorch_lightning/plugins/precision/sharded_native_amp.py]
    followed by the properties established for them.

    Python values are unityped; the embedding keeps the fragment of the
    value universe these functions inspect, models exceptions with an
    explicit result type, dictionaries with finite maps, and objects that
    are mutated through several references with an explicit heap. *)

From Stdlib Require Import ZArith String Ascii List Bool Lia.
From stdpp Require Import base option list gmap strings fin_maps sorting.

#[local] Set Warnings "-register-all".
#[local] Open Scope string_scope.
#[local] Open Scope list_scope.

(* ===================================================================== *)
(** * Part I.  The embedding                                              *)
(* ===================================================================== *)

(** ** The fragment of the Python runtime used by the sources *)
Module Py.

(** Exception classes raised or caught by the sources, with the part of the
    built-in hierarchy that decides which [except] clause applies. *)
Inductive ExcClass : Type :=
| Exception
| ValueError
| TypeError
| AttributeError
| LookupError
| KeyError
| IndexError
| RuntimeError
| RecursionError
| PickleError
| PicklingError
| UnpicklingError.

#[global] Instance ExcClass_eq_dec : EqDecision ExcClass.
Proof. solve_decision. Defined.

(** Direct base class ([None] for [Exception], the root kept here). *)
Definition exc_base (c : ExcClass) : option ExcClass :=
  match c with
  | Exception => None
  | ValueError | TypeError | AttributeError | LookupError
  | RuntimeError | PickleError => Some Exception
  | KeyError | IndexError => Some LookupError
  | RecursionError => Some RuntimeError
  | PicklingError | UnpicklingError => Some PickleError
  end.

(** [issubclass c d]; the hierarchy above has depth three. *)
Definition issubclass (c d : ExcClass) : bool :=
  bool_decide (c = d)
  || match exc_base c with
     | None => false
     | Some b =>
         bool_decide (b = d)
         || match exc_base b with
            | None => false
            | Some b' => bool_decide (b' = d)
            end
     end.

(** An exception instance: its class, its message (for [KeyError] the
    missing key) and the exception it was raised [from]. *)
Inductive Exn : Type :=
| MkExn (cls : ExcClass) (msg : string) (cause : option Exn).

Definition exc_class (e : Exn) : ExcClass := let 'MkExn c _ _ := e in c.
Definition exc_msg (e : Exn) : string := let 'MkExn _ m _ := e in m.
Definition exc_cause (e : Exn) : option Exn := let 'MkExn _ _ c := e in c.

(** [isinstance(e, classes)] for a tuple of exception classes: the test an
    [except classes] clause performs. *)
Definition exc_matches (e : Exn) (classes : list ExcClass) : bool :=
  existsb (issubclass (exc_class e)) classes.

(** Outcome of running a piece of Python code: a value or a raised
    exception. *)
Inductive Result (A : Type) : Type :=
| Ok (a : A)
| Raise (e : Exn).
Arguments Ok {A} a.
Arguments Raise {A} e.

Definition bind {A B} (r : Result A) (k : A → Result B) : Result B :=
  match r with
  | Ok a => k a
  | Raise e => Raise e
  end.

Definition raise {A} (c : ExcClass) (msg : string) : Result A :=
  Raise (MkExn c msg None).

(** [raise c(msg) from cause] *)
Definition raise_from {A} (c : ExcClass) (msg : string) (cause : Exn) : Result A :=
  Raise (MkExn c msg (Some cause)).

(** The value a run returned, if it returned. *)
Definition returned {A} (r : Result A) : option A :=
  match r with Ok a => Some a | Raise _ => None end.

(** The class of the exception a run ended with, if any. *)
Definition raised_class {A} (r : Result A) : option ExcClass :=
  match r with Ok _ => None | Raise e => Some (exc_class e) end.

(** Values held in dictionaries and local variables.  Numbers are kept as
    integers or as the bit pattern of a double (no function here computes
    with them); a dictionary is a finite map from string keys; [PyMethod]
    is a class-level attribute bound to its instance; [PyObject] stands for
    any other object, identified by a name. *)
Inductive PyVal : Type :=
| PyNone
| PyBool (b : bool)
| PyInt (z : Z)
| PyFloat (bits : Z)
| PyStr (s : string)
| PyDict (d : gmap string PyVal)
| PyMethod (name : string)
| PyObject (name : string).

(** The double quote character, for messages that quote a name. *)
Definition dquote : string := String (ascii_of_nat 34) EmptyString.

(** [d[key]] *)
Definition dict_getitem {V} (d : gmap string V) (key : string) : Result V :=
  match d !! key with
  | Some v => Ok v
  | None => raise KeyError key
  end.

(** [del d[key]] *)
Definition dict_delitem {V} (d : gmap string V) (key : string) : Result (gmap string V) :=
  match d !! key with
  | Some _ => Ok (delete key d)
  | None => raise KeyError key
  end.

End Py.

Export Py.

#[global] Instance Result_ret : MRet Result := @Ok.
#[global] Instance Result_bind : MBind Result := λ A B k r, Py.bind r k.

(** ** [pytorch_lightning/utilities/parsing.py] *)
Module parsing.

(** *** [str_to_bool_or_str], [str_to_bool] *)

(** The [Union[str, bool]] returned by [str_to_bool_or_str]. *)
Inductive StrOrBool : Type :=
| IsBool (b : bool)
| IsStr (s : string).

Definition true_values : list string := ["y"; "yes"; "t"; "true"; "on"; "1"].
Definition false_values : list string := ["n"; "no"; "f"; "false"; "off"; "0"].

(** [x in (a, b, ...)] on a tuple of strings. *)
Definition str_in (x : string) (t : list string) : bool := bool_decide (x ∈ t).

Section StrToBool.

(** [str.lower], a method of the built-in string type. *)
Variable str_lower : string → string.

Definition str_to_bool_or_str (val : string) : StrOrBool :=
  let lower := str_lower val in
  if str_in lower true_values then IsBool true
  else if str_in lower false_values then IsBool false
  else IsStr val.

Definition str_to_bool (val : string) : Result bool :=
  let val_converted := str_to_bool_or_str val in
  match val_converted with
  | IsBool b => Ok b
  | IsStr s => raise ValueError ("invalid truth value " +:+ s)
  end.

End StrToBool.

(** [str.lower] on ASCII text, used to run the functions. *)
Definition ascii_lower_char (c : ascii) : ascii :=
  let n := nat_of_ascii c in
  if (65 <=? n)%nat && (n <=? 90)%nat then ascii_of_nat (n + 32) else c.

Fixpoint ascii_lower (s : string) : string :=
  match s with
  | EmptyString => EmptyString
  | String c s' => String (ascii_lower_char c) (ascii_lower s')
  end.

(** *** [str_to_bool_or_int] *)

(** The [Union[bool, int, str]] returned by [str_to_bool_or_int]. *)
Inductive BoolOrIntOrStr : Type :=
| AsBool (b : bool)
| AsInt (z : Z)
| AsStr (s : string).

Section StrToBoolOrInt.

Variable str_lower : string → string.

(** [int(s)] on a string: the integer it denotes, or the exception raised
    ([ValueError] when the string is not an integer literal). *)
Variable py_int : string → Result Z.

Definition str_to_bool_or_int (val : string) : Result BoolOrIntOrStr :=
  let val_converted := str_to_bool_or_str str_lower val in
  match val_converted with
  | IsBool b => Ok (AsBool b)
  | IsStr s =>
      match py_int s with
      | Ok z => Ok (AsInt z)
      | Raise e => if exc_matches e [ValueError] then Ok (AsStr s) else Raise e
      end
  end.

End StrToBoolOrInt.

(** [int] on decimal literals with an optional sign, used to run the
    function (Python's also accepts surrounding blanks and underscores
    between digits). *)
Definition digit_of (c : ascii) : option Z :=
  let n := nat_of_ascii c in
  if (48 <=? n)%nat && (n <=? 57)%nat then Some (Z.of_nat (n - 48)) else None.

Fixpoint digits_value (s : string) (acc : Z) : option Z :=
  match s with
  | EmptyString => Some acc
  | String c s' =>
      match digit_of c with
      | Some d => digits_value s' (10 * acc + d)
      | None => None
      end
  end.

Definition int_decimal (s : string) : Result Z :=
  let digits body :=
    match body with
    | EmptyString => None
    | _ => digits_value body 0
    end in
  let parsed :=
    match s with
    | String "-" body => Z.opp <$> digits body
    | String "+" body => digits body
    | _ => digits s
    end in
  match parsed with
  | Some z => Ok z
  | None => raise ValueError ("invalid literal for int() with base 10: '" +:+ s +:+ "'")
  end.


(** *** [is_picklable], [clean_namespace] *)

(** The argument of [clean_namespace]: a dictionary, or an
    [argparse.Namespace] whose [__dict__] is the dictionary worked on. *)
Inductive HParams : Type :=
| HDict (d : gmap string PyVal)
| HNamespace (ns_dict : gmap string PyVal).

Definition hparams_dict_of (hparams : HParams) : gmap string PyVal :=
  match hparams with
  | HDict d => d
  | HNamespace d => d
  end.

(** The same object once its dictionary has been updated in place. *)
Definition hparams_with_dict (hparams : HParams) (d : gmap string PyVal) : HParams :=
  match hparams with
  | HDict _ => HDict d
  | HNamespace _ => HNamespace d
  end.

(** What a call leaves behind: the object mutated in place, the warnings
    sent to [rank_zero_warn], and how the call ended. *)
Record Cleaned : Type := MkCleaned {
  cleaned_hparams : HParams;
  cleaned_warnings : list string;
  cleaned_outcome : Result ()
}.

Definition removed_warning (k : string) : string :=
  "attribute '" +:+ k +:+ "' removed from hparams because it cannot be pickled".

Section Pickle.

(** [pickle.dumps] of the standard library: the byte string, or the
    exception raised while pickling. *)
Variable pickle_dumps : PyVal → Result string.

Definition is_picklable (obj : PyVal) : Result bool :=
  match pickle_dumps obj with
  | Ok _ => Ok true
  | Raise e =>
      if exc_matches e [PickleError; AttributeError] then Ok false
      else Raise e
  end.

(** [[k for k, v in hparams_dict.items() if not is_picklable(v)]] *)
Fixpoint del_attrs_of (items : list (string * PyVal)) : Result (list string) :=
  match items with
  | [] => Ok []
  | (k, v) :: rest =>
      p ← is_picklable v;
      ks ← del_attrs_of rest;
      Ok (if (p : bool) then ks else k :: ks)
  end.

(** The [for k in del_attrs] loop, threading the dictionary and the
    warnings issued so far. *)
Fixpoint del_loop (del_attrs : list string) (d : gmap string PyVal)
    (warnings : list string) : gmap string PyVal * list string * Result () :=
  match del_attrs with
  | [] => (d, warnings, Ok ())
  | k :: rest =>
      let warnings := warnings ++ [removed_warning k] in
      match dict_delitem d k with
      | Ok d' => del_loop rest d' warnings
      | Raise e => (d, warnings, Raise e)
      end
  end.

(** The entries are visited in the order in which the finite map
    enumerates them; the deletions that result do not depend on it. *)
Definition clean_namespace (hparams : HParams) : Cleaned :=
  let hparams_dict := hparams_dict_of hparams in
  match del_attrs_of (map_to_list hparams_dict) with
  | Raise e => MkCleaned hparams [] (Raise e)
  | Ok del_attrs =>
      let '(d, warnings, r) := del_loop del_attrs hparams_dict [] in
      MkCleaned (hparams_with_dict hparams d) warnings r
  end.

End Pickle.

(** A [pickle.dumps] to run the functions with: a lambda cannot be pickled
    ([PicklingError]), a lock is rejected with [TypeError], a function
    defined inside another with [AttributeError]; the bytes produced for the
    other values are left out. *)
Definition pickle_dumps_sample (obj : PyVal) : Result string :=
  match obj with
  | PyObject "lambda" => raise PicklingError "Can't pickle <function <lambda>>"
  | PyObject "local function" => raise AttributeError "Can't pickle local object"
  | PyObject "lock" => raise TypeError "cannot pickle '_thread.lock' object"
  | _ => Ok ""
  end.

(** *** [parse_class_init_keys] *)

(** [inspect.Parameter.kind] *)
Inductive ParameterKind : Type :=
| POSITIONAL_ONLY
| POSITIONAL_OR_KEYWORD
| VAR_POSITIONAL
| KEYWORD_ONLY
| VAR_KEYWORD.

#[global] Instance ParameterKind_eq_dec : EqDecision ParameterKind.
Proof. solve_decision. Defined.

(** [inspect.Parameter], reduced to the two fields read here. *)
Record Param : Type := MkParam {
  name : string;
  kind : ParameterKind
}.

(** A class, as far as these functions look into it: the ordered
    parameters of [inspect.signature(cls.__init__)]. *)
Record PyClass : Type := MkClass {
  cls_name : string;
  init_signature : list Param
}.

Fixpoint _get_first_if_any (params : list Param) (param_type : ParameterKind)
    : option string :=
  match params with
  | [] => None
  | p :: params' =>
      if bool_decide (kind p = param_type) then Some (name p)
      else _get_first_if_any params' param_type
  end.

Definition parse_class_init_keys (cls : PyClass)
    : Result (string * option string * option string) :=
  let init_params := init_signature cls in
  match init_params with
  | [] => raise IndexError "list index out of range"
  | p0 :: _ =>
      let n_self := name p0 in
      let n_args := _get_first_if_any init_params VAR_POSITIONAL in
      let n_kwargs := _get_first_if_any init_params VAR_KEYWORD in
      Ok (n_self, n_args, n_kwargs)
  end.

(** *** [get_init_args], [collect_init_args] *)

(** A stack frame ([types.FrameType]): its local variables and the frame of
    its caller.  The [__class__] entry of the locals, which the compiler
    binds to the enclosing class in a method that uses [super], is kept as
    a field of its own; [f_locals] holds the other variables. *)
Inductive Frame : Type :=
| MkFrame (f_class : option PyClass) (f_locals : gmap string PyVal)
          (f_back : option Frame).

Definition f_class (frame : Frame) : option PyClass :=
  let 'MkFrame c _ _ := frame in c.
Definition f_locals (frame : Frame) : gmap string PyVal :=
  let 'MkFrame _ l _ := frame in l.
Definition f_back (frame : Frame) : option Frame :=
  let 'MkFrame _ _ b := frame in b.

(** ["__class__" in local_vars] *)
Definition has_class (frame : Frame) : bool :=
  match f_class frame with Some _ => true | None => false end.

(** Truth value of an [Optional[str]] in [if n]. *)
Definition truthy_name (n : option string) : bool :=
  match n with
  | Some s => negb (bool_decide (s = ""))
  | None => false
  end.

(** [[n for n in (self_var, args_var, kwargs_var) if n]] *)
Definition filtered_vars_of (self_var : string) (args_var kwargs_var : option string)
    : list string :=
  omap (λ n, if truthy_name n then n else None)
       [Some self_var; args_var; kwargs_var].

(** [{k: local_vars[k] for k in init_parameters.keys()}] *)
Fixpoint collect_locals (local_vars : gmap string PyVal) (keys : list string)
    (acc : gmap string PyVal) : Result (gmap string PyVal) :=
  match keys with
  | [] => Ok acc
  | k :: keys' =>
      v ← dict_getitem local_vars k;
      collect_locals local_vars keys' (<[k := v]> acc)
  end.

(** [d.update(other)]: the entries of a dictionary replace those of [d]; an
    empty string is an empty sequence of pairs; a non-empty string yields
    elements that are not pairs; the remaining values are not iterable. *)
Definition dict_update (d : gmap string PyVal) (other : PyVal)
    : Result (gmap string PyVal) :=
  match other with
  | PyDict o => Ok (o ∪ d)
  | PyStr "" => Ok d
  | PyStr _ =>
      raise ValueError "dictionary update sequence element #0 has length 1; 2 is required"
  | _ => raise TypeError "object is not iterable"
  end.

Definition get_init_args (frame : Frame) : Result (gmap string PyVal) :=
  let local_vars := f_locals frame in
  match f_class frame with
  | None => Ok ∅
  | Some cls =>
      let init_parameters := init_signature cls in
      '(self_var, args_var, kwargs_var) ← parse_class_init_keys cls;
      let filtered_vars := filtered_vars_of self_var args_var kwargs_var in
      let exclude_argnames := filtered_vars ++ ["__class__"; "frame"; "frame_args"] in
      local_args ← collect_locals local_vars (name <$> init_parameters) ∅;
      local_args ←
        (if truthy_name kwargs_var then
           let kw := default "" kwargs_var in
           dict_update local_args (default (PyDict ∅) (local_args !! kw))
         else Ok local_args);
      Ok (filter (λ kv, kv.1 ∉ exclude_argnames) (local_args : gmap string PyVal))
  end.

(** The list [path_args] is appended to in place and returned; the
    recursion follows [frame.f_back], so it is structural on the frame. *)
Fixpoint collect_init_args (frame : Frame) (path_args : list (gmap string PyVal))
    (inside : bool) : Result (list (gmap string PyVal)) :=
  match frame with
  | MkFrame _ _ None => Ok path_args
  | MkFrame _ _ (Some back) =>
      if has_class frame then
        local_args ← get_init_args frame;
        collect_init_args back (path_args ++ [local_args]) true
      else if negb inside then collect_init_args back path_args inside
      else Ok path_args
  end.

(** *** [flatten_dict] *)
Section FlattenDict.

(** The values that are not dictionaries. *)
Variable V : Type.

(** A value met in the source: a nested dictionary, given by its items in
    iteration order, or a value of another type. *)
Inductive Nested : Type :=
| NOther (v : V)
| NDict (items : list (string * Nested)).

(** The body of the [for k, v in source.items()] loop on one item; for a
    nested dictionary it is the loop over the items of that dictionary, with
    the same [result]. *)
Fixpoint flatten_item (k : string) (v : Nested) (result : gmap string V)
    : gmap string V :=
  match v with
  | NDict items =>
      (fix loop (items : list (string * Nested)) (result : gmap string V) :=
         match items with
         | [] => result
         | (k', v') :: items' => loop items' (flatten_item k' v' result)
         end) items result
  | NOther x => <[k := x]> result
  end.

(** The loop over the items of [source]. *)
Definition flatten_items (source : list (string * Nested)) (result : gmap string V)
    : gmap string V :=
  foldl (λ result kv, flatten_item kv.1 kv.2 result) result source.

(** [result] is the dictionary written to in place and returned; [None]
    stands for a fresh empty one. *)
Definition flatten_dict (source : list (string * Nested))
    (result : option (gmap string V)) : gmap string V :=
  let result := match result with None => ∅ | Some r => r end in
  flatten_items source result.

End FlattenDict.

Arguments NOther {V} _.
Arguments NDict {V} _.
Arguments flatten_item {V} _ _ _.
Arguments flatten_items {V} _ _.
Arguments flatten_dict {V} _ _.


(** *** [AttributeDict] *)
Module AttributeDict.

Definition __getattr__ (self : gmap string PyVal) (key : string) : Result PyVal :=
  match dict_getitem self key with
  | Ok v => Ok v
  | Raise exp =>
      if exc_matches exp [KeyError] then
        raise_from AttributeError ("Missing attribute " +:+ dquote +:+ key +:+ dquote) exp
      else Raise exp
  end.

(** [self[key] = val] *)
Definition __setitem__ (self : gmap string PyVal) (key : string) (val : PyVal)
    : gmap string PyVal :=
  <[key := val]> self.

Definition __setattr__ (self : gmap string PyVal) (key : string) (val : PyVal)
    : gmap string PyVal :=
  __setitem__ self key val.

Section Lookup.

(** Ordinary attribute lookup on an instance ([object.__getattribute__]):
    the attribute found for a name that the class or one of its bases
    defines, [None] when the lookup fails with [AttributeError]. *)
Variable object_getattribute : string → option PyVal.

(** Attribute access [ad.key]: [__getattr__] is the hook that Python calls
    when ordinary lookup fails. *)
Definition getattr (self : gmap string PyVal) (key : string) : Result PyVal :=
  match object_getattribute key with
  | Some v => Ok v
  | None => __getattr__ self key
  end.

End Lookup.

(** Attribute assignment [ad.key = val]: Python calls [__setattr__] for
    every name. *)
Definition setattr (self : gmap string PyVal) (key : string) (val : PyVal)
    : gmap string PyVal :=
  __setattr__ self key val.

(** Names that ordinary lookup is sure to find: the three methods that the
    class body defines and the public methods it inherits from [dict]. *)
Definition class_attributes : list string :=
  [ "__getattr__"; "__setattr__"; "__repr__";
    "clear"; "copy"; "fromkeys"; "get"; "items"; "keys"; "pop"; "popitem";
    "setdefault"; "update"; "values" ].

(** A lookup that finds these names and no other, to run [getattr] with. *)
Definition class_lookup (key : string) : option PyVal :=
  if bool_decide (key ∈ class_attributes) then Some (PyMethod key) else None.

(** The format field [{:Ns}] applied to a string: spaces are added on the
    right up to the width [N]; a longer string is left as it is. *)
Definition format_width (width : nat) (s : string) : string :=
  s +:+ string_of_list_ascii (replicate (width - String.length s) " "%char).

Definition newline : string := String (ascii_of_nat 10) EmptyString.

(** [sep.join(rows)] *)
Fixpoint join (sep : string) (rows : list string) : string :=
  match rows with
  | [] => ""
  | [r] => r
  | r :: rows' => r +:+ sep +:+ join sep rows'
  end.

(** [sorted(keys)] on strings: the order of their characters' codes. *)
Definition sorted (keys : list string) : list string :=
  merge_sort String.le keys.

(** [f'"{n}":'] *)
Definition quoted_key (n : string) : string := dquote +:+ n +:+ dquote +:+ ":".

Section Repr.

(** [str(v)], to which the format field [{}] formats a value; it runs the
    [__str__] of the value, which may raise.  The keys are strings, the
    names that attribute access takes. *)
Variable py_str : PyVal → Result string.

(** [[tmp_name.format(f'"{n}":', self[n]) for n in keys]], where [tmp_name]
    is ["{:" + str(width) + "s} {}"]. *)
Fixpoint repr_rows (self : gmap string PyVal) (width : nat) (keys : list string)
    : Result (list string) :=
  match keys with
  | [] => Ok []
  | n :: keys' =>
      v ← dict_getitem self n;
      s ← py_str v;
      rows ← repr_rows self width keys';
      Ok ((format_width width (quoted_key n) +:+ " " +:+ s) :: rows)
  end.

Definition __repr__ (self : gmap string PyVal) : Result string :=
  if bool_decide (size self = 0%nat) then Ok ""
  else
    let keys := (map_to_list self).*1 in
    let max_key_length := max_list (String.length <$> keys) in
    rows ← repr_rows self (max_key_length + 3) (sorted keys);
    Ok (join newline rows).

End Repr.


End AttributeDict.

(** *** [lightning_hasattr], [lightning_getattr], [lightning_setattr] *)

(** The model, its [hparams], its trainer and the datamodule are objects
    reached through references and mutated in place, so they live in a
    heap.  A value is an immediate or a reference to a heap object. *)
Inductive Val : Type :=
| VNone
| VBool (b : bool)
| VInt (z : Z)
| VStr (s : string)
| VRef (l : nat).

#[global] Instance Val_eq_dec : EqDecision Val.
Proof. solve_decision. Defined.

(** Heap objects: a [dict], whose entries are its items; an
    [argparse.Namespace]; or an instance of any other class (a module, a
    trainer, a datamodule), whose entries are the instance attributes, the
    contents of its [__dict__].  The [hparams] are reached only through
    [in], item access and item assignment, for which an [AttributeDict] is a
    [dict]. *)
Inductive ObjKind : Type :=
| DictObj
| NamespaceObj
| InstanceObj.

(** What the class of an object (and its base classes) defines under a
    name: a class attribute or method, which an instance attribute of the
    same name shadows and which assignment leaves alone; or a property
    without a setter, which is read before the instance attributes and
    refuses assignment.  A property stands for the value its getter
    returns.  A class that handles the name in another way (a property
    with a setter, [__slots__], a [__getattr__] or [__setattr__] that does
    not end in the default lookup and assignment) is not described. *)
Inductive ClassAttr : Type :=
| ClassValue (v : Val)
| ReadOnlyProperty (v : Val).

Record Obj : Type := MkObj {
  obj_kind : ObjKind;
  obj_class : gmap string ClassAttr;
  obj_entries : gmap string Val
}.

(** [isinstance(o, dict)] *)
Definition isinstance_dict (h : gmap nat Obj) (o : Val) : bool :=
  match o with
  | VRef l =>
      match h !! l with
      | Some (MkObj DictObj _ _) => true
      | _ => false
      end
  | _ => false
  end.

(** The instance attribute of an object under a name; the items of a
    dictionary are not attributes. *)
Definition instance_attr (obj : Obj) (name : string) : option Val :=
  match obj_kind obj with
  | DictObj => None
  | NamespaceObj | InstanceObj => obj_entries obj !! name
  end.

Definition no_attribute {A} (name : string) : Result A :=
  raise AttributeError ("object has no attribute '" +:+ name +:+ "'").

Section Attributes.
(** The attributes of [None], of the booleans, the integers and the
    strings, which their builtin classes define. *)
Variable builtin_attr : Val → string → option Val.

(** [getattr(o, name)]: a property of the class, then the instance
    attribute, then what else the class defines. *)
Definition py_getattr (h : gmap nat Obj) (o : Val) (name : string) : Result Val :=
  match o with
  | VRef l =>
      match h !! l with
      | Some obj =>
          match obj_class obj !! name with
          | Some (ReadOnlyProperty v) => Ok v
          | found =>
              match instance_attr obj name with
              | Some v => Ok v
              | None =>
                  match found with
                  | Some (ClassValue v) => Ok v
                  | _ => no_attribute name
                  end
              end
          end
      | None => no_attribute name
      end
  | _ =>
      match builtin_attr o name with
      | Some v => Ok v
      | None => no_attribute name
      end
  end.

(** [hasattr(o, name)]: whether [getattr(o, name)] returns, the only
    exception of [py_getattr] being [AttributeError]. *)
Definition py_hasattr (h : gmap nat Obj) (o : Val) (name : string) : bool :=
  match py_getattr h o name with
  | Ok _ => true
  | Raise _ => false
  end.

(** [getattr(o, name, default)] *)
Definition py_getattr_default (h : gmap nat Obj) (o : Val) (name : string)
    (default : Val) : Val :=
  match py_getattr h o name with
  | Ok v => v
  | Raise _ => default
  end.

(** [setattr(o, name, value)]: the heap after the assignment.  A property
    without a setter refuses it; otherwise the value becomes an instance
    attribute.  The builtin values and a plain [dict] have no [__dict__] to
    store it in. *)
Definition py_setattr (h : gmap nat Obj) (o : Val) (name : string) (value : Val)
    : Result (gmap nat Obj) :=
  match o with
  | VRef l =>
      match h !! l with
      | Some (MkObj k cls ns) =>
          match cls !! name with
          | Some (ReadOnlyProperty _) => raise AttributeError "can't set attribute"
          | _ =>
              match k with
              | DictObj => no_attribute name
              | NamespaceObj | InstanceObj =>
                  Ok (<[l := MkObj k cls (<[name := value]> ns)]> h)
              end
          end
      | None => no_attribute name
      end
  | _ => no_attribute name
  end.

(** [o[key]] *)
Definition py_getitem (h : gmap nat Obj) (o : Val) (key : string) : Result Val :=
  match o with
  | VRef l =>
      match h !! l with
      | Some (MkObj DictObj _ d) => dict_getitem d key
      | _ => raise TypeError "object is not subscriptable"
      end
  | _ => raise TypeError "object is not subscriptable"
  end.

(** [o[key] = value] *)
Definition py_setitem (h : gmap nat Obj) (o : Val) (key : string) (value : Val)
    : Result (gmap nat Obj) :=
  match o with
  | VRef l =>
      match h !! l with
      | Some (MkObj DictObj cls d) =>
          Ok (<[l := MkObj DictObj cls (<[key := value]> d)]> h)
      | _ => raise TypeError "object does not support item assignment"
      end
  | _ => raise TypeError "object does not support item assignment"
  end.

(** [key in o]: a key test on a dictionary and on a [Namespace], a
    substring test on a string, a [TypeError] on the other values. *)
Definition py_contains (h : gmap nat Obj) (o : Val) (key : string) : Result bool :=
  match o with
  | VRef l =>
      match h !! l with
      | Some (MkObj DictObj _ d) | Some (MkObj NamespaceObj _ d) =>
          Ok (bool_decide (is_Some (d !! key)))
      | _ => raise TypeError "argument is not iterable"
      end
  | VStr s =>
      Ok (match String.index 0 key s with Some _ => true | None => false end)
  | _ => raise TypeError "argument is not iterable"
  end.

(** [v is not None] *)
Definition is_not_None (v : Val) : bool :=
  match v with VNone => false | _ => true end.

Definition _lightning_get_all_attr_holders (h : gmap nat Obj) (model : Val)
    (attribute : string) : Result (list Val) :=
  let trainer := py_getattr_default h model "trainer" VNone in
  let holders : list Val := [] in
  let holders := if py_hasattr h model attribute then holders ++ [model] else holders in
  holders ←
    (if py_hasattr h model "hparams" then
       hparams ← py_getattr h model "hparams";
       c ← py_contains h hparams attribute;
       Ok (if (c : bool) then holders ++ [hparams] else holders)
     else Ok holders);
  if is_not_None trainer then
    datamodule ← py_getattr h trainer "datamodule";
    if is_not_None datamodule && py_hasattr h datamodule attribute
    then Ok (holders ++ [datamodule])
    else Ok holders
  else Ok holders.

(** [None] is returned as the value [VNone], as in the source. *)
Definition _lightning_get_first_attr_holder (h : gmap nat Obj) (model : Val)
    (attribute : string) : Result Val :=
  holders ← _lightning_get_all_attr_holders h model attribute;
  if bool_decide (length holders = 0%nat) then Ok VNone
  else Ok (List.last holders VNone).

Definition lightning_hasattr (h : gmap nat Obj) (model : Val) (attribute : string)
    : Result bool :=
  holder ← _lightning_get_first_attr_holder h model attribute;
  Ok (is_not_None holder).

Definition no_holder_message (attribute : string) : string :=
  attribute +:+ " is neither stored in the model namespace"
            +:+ " nor the `hparams` namespace/dict, nor the datamodule.".

Definition lightning_getattr (h : gmap nat Obj) (model : Val) (attribute : string)
    : Result Val :=
  holder ← _lightning_get_first_attr_holder h model attribute;
  if negb (is_not_None holder) then raise AttributeError (no_holder_message attribute)
  else if isinstance_dict h holder then py_getitem h holder attribute
  else py_getattr h holder attribute.

(** The [for holder in holders] loop of [lightning_setattr]: the heap
    reached and how the loop ended. *)
Fixpoint set_in_holders (h : gmap nat Obj) (holders : list Val) (attribute : string)
    (value : Val) : gmap nat Obj * Result () :=
  match holders with
  | [] => (h, Ok ())
  | holder :: rest =>
      let r :=
        if isinstance_dict h holder then py_setitem h holder attribute value
        else py_setattr h holder attribute value in
      match r with
      | Ok h' => set_in_holders h' rest attribute value
      | Raise e => (h, Raise e)
      end
  end.

Definition lightning_setattr (h : gmap nat Obj) (model : Val) (attribute : string)
    (value : Val) : gmap nat Obj * Result () :=
  match _lightning_get_all_attr_holders h model attribute with
  | Raise e => (h, Raise e)
  | Ok holders =>
      if bool_decide (length holders = 0%nat)
      then (h, raise AttributeError (no_holder_message attribute))
      else set_in_holders h holders attribute value
  end.

End Attributes.

(** A reading of [builtin_attr] for the examples: it is right for the names
    asked for there (['trainer'], ['hparams'], ['datamodule'], ['lr']),
    none of which is an attribute of [None], a boolean, an integer or a
    string. *)
Definition builtin_attr_sample (o : Val) (name : string) : option Val := None.

End parsing.

(** ** [pytorch_lightning/plugins/precision/sharded_native_amp.py] *)
Module sharded_native_amp.

(** A method call received by the optimizer. *)
Inductive OptimizerCall : Type :=
| Call_clip_grad_norm (max_norm : PyVal) (norm_type : PyVal).

Section OSS.

(** The state of a [fairscale.optim.OSS] optimizer and its
    [clip_grad_norm(max_norm, norm_type)]: the state it leaves (gradients
    rescaled across the shards) and the total norm it returns. *)
Variable OSS : Type.
Variable oss_clip_grad_norm : OSS → PyVal → PyVal → OSS * PyVal.

(** An optimizer object: its state together with the calls made on it. *)
Record Optimizer : Type := MkOptimizer {
  opt_state : OSS;
  opt_calls : list OptimizerCall
}.

(** [optimizer.clip_grad_norm(max_norm, norm_type=norm_type)] *)
Definition clip_grad_norm (optimizer : Optimizer) (max_norm norm_type : PyVal)
    : Optimizer * PyVal :=
  let '(st, total_norm) := oss_clip_grad_norm (opt_state optimizer) max_norm norm_type in
  (MkOptimizer st (opt_calls optimizer ++ [Call_clip_grad_norm max_norm norm_type]),
   total_norm).

Record ShardedNativeMixedPrecisionPlugin : Type := MkPlugin {
  precision : PyVal;
  use_cpu : bool
}.

(** Defaults of the signature: [norm_type = 2.0], [eps = 1e-6]. *)
Definition default_norm_type : PyVal := PyFloat 0x4000000000000000.
Definition default_eps : PyVal := PyFloat 0x3EB0C6F7A0B5ED8D.

(** The method returns [None]; the optimizer is mutated by the call. *)
Definition clip_grad_by_norm (self : ShardedNativeMixedPrecisionPlugin)
    (optimizer : Optimizer) (clip_val norm_type eps : PyVal) : Optimizer * PyVal :=
  let '(optimizer, _) := clip_grad_norm optimizer clip_val norm_type in
  (optimizer, PyNone).

End OSS.

Arguments MkOptimizer {OSS} _ _.
Arguments opt_state {OSS} _.
Arguments opt_calls {OSS} _.
Arguments clip_grad_norm {OSS} _ _ _ _.
Arguments clip_grad_by_norm {OSS} _ _ _ _ _ _.

End sharded_native_amp.

(** ** Vocabulary of the statements *)

(** [r] is the name of the first parameter of kind [k] in [params], or
    [None] when no parameter has that kind. *)
Definition first_of_kind (params : list parsing.Param) (k : parsing.ParameterKind)
    (r : option string) : Prop :=
  match r with
  | Some n =>
      ∃ before p after,
        params = before ++ p :: after ∧
        Forall (λ q, parsing.kind q ≠ k) before ∧
        parsing.kind p = k ∧ parsing.name p = n
  | None => Forall (λ q, parsing.kind q ≠ k) params
  end.

(** [is_picklable] returned [False] on [v]. *)
Definition unpicklable (pickle_dumps : PyVal → Result string) (v : PyVal) : bool :=
  match parsing.is_picklable pickle_dumps v with
  | Ok false => true
  | _ => false
  end.

(** The frames of a chain that have a parent frame, innermost first: the
    frames at which the walk of [collect_init_args] can go on. *)
Fixpoint frames_with_parent (frame : parsing.Frame) : list parsing.Frame :=
  match frame with
  | parsing.MkFrame _ _ None => []
  | parsing.MkFrame _ _ (Some back) => frame :: frames_with_parent back
  end.

Fixpoint take_while {A} (p : A → bool) (l : list A) : list A :=
  match l with
  | [] => []
  | x :: l' => if p x then x :: take_while p l' else []
  end.

Fixpoint drop_while {A} (p : A → bool) (l : list A) : list A :=
  match l with
  | [] => []
  | x :: l' => if p x then drop_while p l' else l
  end.

(** The frames whose constructor arguments are collected: once the
    inheritance path is entered (at once if [inside], otherwise at the first
    frame with [__class__]), the consecutive frames with [__class__], up to
    the first frame without it or the frame that has no parent. *)
Definition inheritance_path (frame : parsing.Frame) (inside : bool) : list parsing.Frame :=
  let walked := frames_with_parent frame in
  let entered :=
    if inside then walked else drop_while (λ f, negb (parsing.has_class f)) walked in
  take_while parsing.has_class entered.

(** The kind of the heap object a value refers to, and the entry it keeps
    under a name (an item of a dictionary, an attribute of another object). *)
Definition kind_of (h : gmap nat parsing.Obj) (o : parsing.Val) : option parsing.ObjKind :=
  match o with
  | parsing.VRef l => parsing.obj_kind <$> h !! l
  | _ => None
  end.

Definition slot (h : gmap nat parsing.Obj) (o : parsing.Val) (name : string)
    : option parsing.Val :=
  match o with
  | parsing.VRef l => obj ← h !! l; parsing.obj_entries obj !! name
  | _ => None
  end.

(** What the class of the object defines under a name. *)
Definition class_attr (h : gmap nat parsing.Obj) (o : parsing.Val) (name : string)
    : option parsing.ClassAttr :=
  match o with
  | parsing.VRef l => obj ← h !! l; parsing.obj_class obj !! name
  | _ => None
  end.

(** The assignment that [lightning_setattr] makes to the holder [o] is
    accepted: [o] is a dictionary, or an object whose class does not define
    [attribute] as a property without a setter. *)
Definition accepts_assignment (h : gmap nat parsing.Obj) (o : parsing.Val)
    (attribute : string) : bool :=
  match kind_of h o with
  | Some parsing.DictObj => true
  | Some _ =>
      match class_attr h o attribute with
      | Some (parsing.ReadOnlyProperty _) => false
      | _ => true
      end
  | None => false
  end.

(** [h'] is [h] with [value] stored under [attribute] in every object of
    [ws], and nothing else changed. *)
Definition stored_in (h h' : gmap nat parsing.Obj) (ws : list parsing.Val)
    (attribute : string) (value : parsing.Val) : Prop :=
  (∀ o, kind_of h' o = kind_of h o) ∧
  (∀ o name, class_attr h' o name = class_attr h o name) ∧
  (∀ o name, slot h' o name
             = if bool_decide (o ∈ ws ∧ name = attribute) then Some value
               else slot h o name).

(** [h'] has the objects of [h], each of the same kind and class; no entry
    has been removed, and only entries under [attribute] may differ. *)
Definition same_shape (h h' : gmap nat parsing.Obj) (attribute : string) : Prop :=
  ∀ o name,
    kind_of h' o = kind_of h o ∧
    class_attr h' o name = class_attr h o name ∧
    (is_Some (slot h o name) → is_Some (slot h' o name)) ∧
    (name ≠ attribute → slot h' o name = slot h o name).

Section HolderVocabulary.
Variable builtin_attr : parsing.Val → string → option parsing.Val.

(** What [lightning_getattr] reads in a holder: the item if it is a
    dictionary, the attribute otherwise. *)
Definition read_holder (h : gmap nat parsing.Obj) (o : parsing.Val) (attribute : string)
    : Result parsing.Val :=
  if parsing.isinstance_dict h o then parsing.py_getitem h o attribute
  else parsing.py_getattr builtin_attr h o attribute.

(** The holder [o] holds [value] under [attribute]. *)
Definition holds (h : gmap nat parsing.Obj) (o : parsing.Val) (attribute : string)
    (value : parsing.Val) : Prop :=
  read_holder h o attribute = Ok value.

(** Writing [attribute] into [holders] leaves in place the three links
    through which the holders are found: [model.trainer], [model.hparams]
    and [trainer.datamodule]. *)
Definition links_kept (h : gmap nat parsing.Obj) (model : parsing.Val)
    (attribute : string) (holders : list parsing.Val) : Prop :=
  (attribute = "trainer" → model ∉ holders) ∧
  (attribute = "hparams" → model ∉ holders) ∧
  (attribute = "datamodule" →
     parsing.py_getattr_default builtin_attr h model "trainer" parsing.VNone ∉ holders).

(** The three places where the attribute is looked for, each given when it
    holds the attribute: the model; its [hparams]; the datamodule of its
    trainer. *)
Definition model_holder (h : gmap nat parsing.Obj) (model : parsing.Val)
    (attribute : string) : option parsing.Val :=
  if parsing.py_hasattr builtin_attr h model attribute then Some model else None.

Definition hparams_holder (h : gmap nat parsing.Obj) (model : parsing.Val)
    (attribute : string) : option parsing.Val :=
  if parsing.py_hasattr builtin_attr h model "hparams" then
    match parsing.py_getattr builtin_attr h model "hparams" with
    | Ok hparams =>
        match parsing.py_contains h hparams attribute with
        | Ok true => Some hparams
        | _ => None
        end
    | Raise _ => None
    end
  else None.

Definition datamodule_holder (h : gmap nat parsing.Obj) (model : parsing.Val)
    (attribute : string) : option parsing.Val :=
  let trainer := parsing.py_getattr_default builtin_attr h model "trainer" parsing.VNone in
  if parsing.is_not_None trainer then
    match parsing.py_getattr builtin_attr h trainer "datamodule" with
    | Ok datamodule =>
        if parsing.is_not_None datamodule
           && parsing.py_hasattr builtin_attr h datamodule attribute
        then Some datamodule else None
    | Raise _ => None
    end
  else None.

(** The holders that [_lightning_get_all_attr_holders] finds in the
    [hparams] and in the datamodule, with the exceptions of these two
    searches. *)
Definition hparams_part (h : gmap nat parsing.Obj) (model : parsing.Val)
    (attribute : string) : Result (list parsing.Val) :=
  if parsing.py_hasattr builtin_attr h model "hparams" then
    hparams ← parsing.py_getattr builtin_attr h model "hparams";
    c ← parsing.py_contains h hparams attribute;
    Ok (if (c : bool) then [hparams] else [])
  else Ok [].

Definition datamodule_part (h : gmap nat parsing.Obj) (model : parsing.Val)
    (attribute : string) : Result (list parsing.Val) :=
  let trainer := parsing.py_getattr_default builtin_attr h model "trainer" parsing.VNone in
  if parsing.is_not_None trainer then
    datamodule ← parsing.py_getattr builtin_attr h trainer "datamodule";
    Ok (if parsing.is_not_None datamodule
           && parsing.py_hasattr builtin_attr h datamodule attribute
        then [datamodule] else [])
  else Ok [].

End HolderVocabulary.

Fixpoint Frame_chain_ind (P : parsing.Frame → Prop)
    (Hroot : ∀ c l, P (parsing.MkFrame c l None))
    (Hcall : ∀ c l back, P back → P (parsing.MkFrame c l (Some back)))
    (frame : parsing.Frame) : P frame :=
  match frame with
  | parsing.MkFrame c l None => Hroot c l
  | parsing.MkFrame c l (Some back) =>
      Hcall c l back (Frame_chain_ind P Hroot Hcall back)
  end.

(** A chain of frames to run the walk on: [save_hyperparameters] is called
    in [Base.__init__], reached through [super().__init__] from
    [Child.__init__], itself called from a function called from the module. *)
Definition Base_class : parsing.PyClass :=
  parsing.MkClass "Base"
    [ parsing.MkParam "self" parsing.POSITIONAL_OR_KEYWORD;
      parsing.MkParam "lr" parsing.POSITIONAL_OR_KEYWORD;
      parsing.MkParam "kwargs" parsing.VAR_KEYWORD ].

Definition Child_class : parsing.PyClass :=
  parsing.MkClass "Child"
    [ parsing.MkParam "self" parsing.POSITIONAL_OR_KEYWORD;
      parsing.MkParam "depth" parsing.POSITIONAL_OR_KEYWORD;
      parsing.MkParam "args" parsing.VAR_POSITIONAL ].

Definition module_frame : parsing.Frame :=
  parsing.MkFrame None {[ "model" := PyNone ]} None.

Definition caller_frame : parsing.Frame :=
  parsing.MkFrame None {[ "depth" := PyInt 4 ]} (Some module_frame).

Definition Child_init_frame : parsing.Frame :=
  parsing.MkFrame (Some Child_class)
    {[ "self" := PyObject "model"; "depth" := PyInt 4; "args" := PyObject "tuple" ]}
    (Some caller_frame).

Definition Base_init_frame : parsing.Frame :=
  parsing.MkFrame (Some Base_class)
    {[ "self" := PyObject "model"; "lr" := PyInt 3;
       "kwargs" := PyDict {[ "momentum" := PyInt 9 ]} ]}
    (Some Child_init_frame).

Definition helper_frame : parsing.Frame :=
  parsing.MkFrame None {[ "obj" := PyObject "model" ]} (Some Base_init_frame).

(** The same constructors, the model being built inside the constructor of
    another class, [Wrapper.__init__], which calls [super().__init__] itself
    and so has [__class__] among its locals. *)
Definition Wrapper_class : parsing.PyClass :=
  parsing.MkClass "Wrapper"
    [ parsing.MkParam "self" parsing.POSITIONAL_OR_KEYWORD;
      parsing.MkParam "cfg" parsing.POSITIONAL_OR_KEYWORD ].

Definition Wrapper_init_frame : parsing.Frame :=
  parsing.MkFrame (Some Wrapper_class)
    {[ "self" := PyObject "wrapper"; "cfg" := PyInt 1 ]}
    (Some caller_frame).

Definition nested_Child_init_frame : parsing.Frame :=
  parsing.MkFrame (Some Child_class)
    {[ "self" := PyObject "model"; "depth" := PyInt 4; "args" := PyObject "tuple" ]}
    (Some Wrapper_init_frame).

Definition nested_Base_init_frame : parsing.Frame :=
  parsing.MkFrame (Some Base_class)
    {[ "self" := PyObject "model"; "lr" := PyInt 3;
       "kwargs" := PyDict {[ "momentum" := PyInt 9 ]} ]}
    (Some nested_Child_init_frame).

(** [Base.__init__] after [del lr]. *)
Definition Base_init_frame_del_lr : parsing.Frame :=
  parsing.MkFrame (Some Base_class)
    {[ "self" := PyObject "model"; "kwargs" := PyDict ∅ ]}
    (Some Child_init_frame).

(** A dictionary of hyper-parameters to run [clean_namespace] on: an
    integer, a lambda and a function defined inside another. *)
Definition sample_hparams : gmap string PyVal :=
  {[ "lr" := PyInt 3; "f" := PyObject "lambda"; "g" := PyObject "local function" ]}.

(** The items of a nested dictionary that are not dictionaries, in the
    order in which a depth-first walk meets them. *)
Fixpoint leaves_of {V} (k : string) (v : parsing.Nested V) : list (string * V) :=
  match v with
  | parsing.NOther x => [(k, x)]
  | parsing.NDict items =>
      (fix walk (items : list (string * parsing.Nested V)) : list (string * V) :=
         match items with
         | [] => []
         | (k', v') :: items' => leaves_of k' v' ++ walk items'
         end) items
  end.

Definition leaves {V} (source : list (string * parsing.Nested V)) : list (string * V) :=
  flat_map (λ kv, leaves_of kv.1 kv.2) source.

(** Induction on nested dictionaries. *)
Fixpoint Nested_items_ind {V} (P : parsing.Nested V → Prop)
    (Hother : ∀ x, P (parsing.NOther x))
    (Hdict : ∀ items, Forall (λ kv, P kv.2) items → P (parsing.NDict items))
    (v : parsing.Nested V) : P v :=
  match v with
  | parsing.NOther x => Hother x
  | parsing.NDict items =>
      Hdict items
        ((fix all (items : list (string * parsing.Nested V))
            : Forall (λ kv, P kv.2) items :=
            match items with
            | [] => @List.Forall_nil _ (λ kv, P kv.2)
            | (k', v') :: items' =>
                @List.Forall_cons _ (λ kv, P kv.2) (k', v') items'
                  (Nested_items_ind P Hother Hdict v') (all items')
            end) items)
  end.

(** A dictionary without nested dictionaries, as a source of [flatten_dict]. *)
Definition flat_source {V} (items : list (string * V)) : list (string * parsing.Nested V) :=
  (λ kv, (kv.1, parsing.NOther kv.2)) <$> items.

(** One row of the text of an [AttributeDict]: the quoted key and a colon,
    padded to [width], a space, and the text [s] of the value. *)
Definition repr_row (width : nat) (n : string) (s : string) : string :=
  parsing.AttributeDict.format_width width (parsing.AttributeDict.quoted_key n)
    +:+ " " +:+ s.

(* ===================================================================== *)
(** * Part II.  Properties                                                *)
(* ===================================================================== *)

Lemma bind_Ok {A B} (a : A) (k : A → Result B) : (Ok a ≫= k) = k a.
Proof. reflexivity. Qed.

Lemma bind_Raise {A B} (e : Exn) (k : A → Result B) : (Raise e ≫= k) = Raise e.
Proof. reflexivity. Qed.

(** ** [str_to_bool] *)
Section StrToBoolSpec.
Import parsing.
Variable str_lower : string → string.

Example str_to_bool_doctest_yes : str_to_bool ascii_lower "YES" = Ok true.
Proof. reflexivity. Qed.

Example str_to_bool_doctest_false : str_to_bool ascii_lower "FALSE" = Ok false.
Proof. reflexivity. Qed.

Example str_to_bool_maybe :
  str_to_bool ascii_lower "Maybe" = raise ValueError "invalid truth value Maybe".
Proof. reflexivity. Qed.

Lemma true_false_disjoint (s : string) : s ∈ true_values → s ∉ false_values.
Proof.
  unfold true_values, false_values. intros Ht Hf.
  repeat (apply elem_of_cons in Ht as [-> | Ht];
          [ repeat (apply elem_of_cons in Hf as [Hf | Hf]; [ discriminate Hf | ]);
            by apply elem_of_nil in Hf | ]).
  by apply elem_of_nil in Ht.
Qed.

(** The three-way case analysis of [str_to_bool] on the lowercase form. *)
Lemma str_to_bool_cases (val : string) :
  str_to_bool str_lower val =
    if str_in (str_lower val) true_values then Ok true
    else if str_in (str_lower val) false_values then Ok false
    else raise ValueError ("invalid truth value " +:+ val).
Proof.
  unfold str_to_bool, str_to_bool_or_str.
  destruct (str_in (str_lower val) true_values); [done |].
  by destruct (str_in (str_lower val) false_values).
Qed.

(** C9.  For every string [val], [str_to_bool val] returns [True] exactly
    when [val.lower()] is one of 'y', 'yes', 't', 'true', 'on', '1', returns
    [False] exactly when it is one of 'n', 'no', 'f', 'false', 'off', '0',
    and raises [ValueError] for every other string; two strings with the
    same lowercase form get the same boolean or both get [ValueError], so
    the function is case-insensitive. *)
Theorem str_to_bool_truth_table (val : string) :
  (str_to_bool str_lower val = Ok true ↔ str_lower val ∈ true_values) ∧
  (str_to_bool str_lower val = Ok false ↔ str_lower val ∈ false_values) ∧
  (raised_class (str_to_bool str_lower val) = Some ValueError
     ↔ ((str_lower val ∉ true_values) ∧ (str_lower val ∉ false_values))) ∧
  (∀ val', str_lower val' = str_lower val →
     returned (str_to_bool str_lower val') = returned (str_to_bool str_lower val) ∧
     raised_class (str_to_bool str_lower val')
       = raised_class (str_to_bool str_lower val)).
Proof.
  pose proof (true_false_disjoint (str_lower val)) as Hdisj.
  assert (Hval := str_to_bool_cases val). unfold str_in in Hval.
  split; [| split; [| split]].
  - rewrite Hval. split.
    + intros Hr. destruct (decide (str_lower val ∈ true_values)) as [| Hn]; [done |].
      rewrite (bool_decide_eq_false_2 _ Hn) in Hr. by case_bool_decide.
    + intros Ht. by rewrite (bool_decide_eq_true_2 _ Ht).
  - rewrite Hval. split.
    + intros Hr. destruct (decide (str_lower val ∈ false_values)) as [| Hn]; [done |].
      rewrite (bool_decide_eq_false_2 _ Hn) in Hr. by case_bool_decide.
    + intros Hf. rewrite bool_decide_eq_false_2 by (intros Ht; by apply Hdisj in Ht).
      by rewrite (bool_decide_eq_true_2 _ Hf).
  - rewrite Hval. split.
    + intros Hr. split; intros Hin; rewrite (bool_decide_eq_true_2 _ Hin) in Hr;
        [done | by case_bool_decide].
    + intros [Ht Hf]. by rewrite !bool_decide_eq_false_2.
  - intros val' Heq. rewrite !str_to_bool_cases, Heq.
    split; by repeat destruct (str_in _ _).
Qed.

End StrToBoolSpec.

Lemma str_to_bool_truth_table_witness :
  parsing.str_to_bool parsing.ascii_lower "yEs" = Ok true ∧
  returned (parsing.str_to_bool parsing.ascii_lower "YES")
    = returned (parsing.str_to_bool parsing.ascii_lower "yEs").
Proof.
  destruct (str_to_bool_truth_table parsing.ascii_lower "yEs") as (Ht & _ & _ & Hsame).
  split.
  - apply Ht. apply (bool_decide_unpack _). vm_compute. exact I.
  - apply (Hsame "YES"). reflexivity.
Defined.

(** ** [ShardedNativeMixedPrecisionPlugin.clip_grad_by_norm] *)
Section ClipGradByNorm.
Import sharded_native_amp.
Variable OSS : Type.
Variable oss_clip_grad_norm : OSS → PyVal → PyVal → OSS * PyVal.

(** C3.  For every optimizer, clip value, norm type and eps,
    [clip_grad_by_norm(optimizer, clip_val, norm_type, eps)] makes exactly
    one call on the optimizer, [clip_grad_norm(clip_val,
    norm_type=norm_type)], leaves the optimizer as that call leaves it,
    returns [None], and gives the same result whatever [eps] is. *)
Theorem clip_grad_by_norm_delegates
    (self : ShardedNativeMixedPrecisionPlugin) (optimizer : Optimizer OSS)
    (clip_val norm_type eps : PyVal) :
  let run := clip_grad_by_norm oss_clip_grad_norm self optimizer clip_val norm_type eps in
  run.2 = PyNone ∧
  opt_calls run.1 = opt_calls optimizer ++ [Call_clip_grad_norm clip_val norm_type] ∧
  length (opt_calls run.1) = S (length (opt_calls optimizer)) ∧
  run.1 = (clip_grad_norm oss_clip_grad_norm optimizer clip_val norm_type).1 ∧
  (∀ eps', clip_grad_by_norm oss_clip_grad_norm self optimizer clip_val norm_type eps'
           = run).
Proof.
  unfold clip_grad_by_norm, clip_grad_norm. cbn zeta.
  destruct (oss_clip_grad_norm (opt_state optimizer) clip_val norm_type) as [st total].
  cbn. rewrite length_app. cbn. repeat split. lia.
Qed.

End ClipGradByNorm.

(** A run with an optimizer whose state is the list of its gradients and
    whose clipping caps each of them at the clip value. *)
Example clip_grad_by_norm_run :
  let cap (st : list PyVal) (max_norm norm_type : PyVal) : list PyVal * PyVal :=
    (map (λ g, match g, max_norm with
               | PyInt z, PyInt m => PyInt (Z.min z m)
               | _, _ => g
               end) st, PyInt 0) in
  sharded_native_amp.clip_grad_by_norm cap
    (sharded_native_amp.MkPlugin (PyInt 16) false)
    (sharded_native_amp.MkOptimizer [PyInt 3; PyInt 12] [])
    (PyInt 10) sharded_native_amp.default_norm_type sharded_native_amp.default_eps
  = (sharded_native_amp.MkOptimizer [PyInt 3; PyInt 10]
       [sharded_native_amp.Call_clip_grad_norm (PyInt 10)
          sharded_native_amp.default_norm_type],
     PyNone).
Proof. reflexivity. Qed.

(** ** [parse_class_init_keys] *)
Section ParseClassInitKeys.
Import parsing.

Example parse_class_init_keys_doctest :
  parse_class_init_keys
    (MkClass "Model"
       [ MkParam "self" POSITIONAL_OR_KEYWORD; MkParam "hparams" POSITIONAL_OR_KEYWORD;
         MkParam "my_args" VAR_POSITIONAL; MkParam "anykw" KEYWORD_ONLY;
         MkParam "my_kwargs" VAR_KEYWORD ])
  = Ok ("self", Some "my_args", Some "my_kwargs").
Proof. reflexivity. Qed.

Lemma _get_first_if_any_spec (params : list Param) (k : ParameterKind) :
  first_of_kind params k (_get_first_if_any params k).
Proof.
  induction params as [| p params IH]; cbn.
  - constructor.
  - case_bool_decide as Hk.
    + exists [], p, params. by repeat split.
    + destruct (_get_first_if_any params k) as [n |]; cbn in *.
      * destruct IH as (before & q & after & -> & Hb & Hq & Hn).
        exists (p :: before), q, after. split; [done |].
        split; [by constructor | done].
      * by constructor.
Qed.

(** A signature without parameters has no first parameter: indexing it
    raises [IndexError]. *)
Lemma parse_class_init_keys_empty (cls : PyClass) :
  init_signature cls = [] →
  raised_class (parse_class_init_keys cls) = Some IndexError.
Proof. unfold parse_class_init_keys. by intros ->. Qed.

(** C7.  For every class whose [__init__] signature starts with a
    parameter [p0], [parse_class_init_keys] returns the triple made of the
    name of [p0], the name of the first var-positional parameter of the
    signature or [None] if there is none, and the name of the first
    var-keyword parameter or [None] if there is none. *)
Theorem parse_class_init_keys_spec (cls : PyClass) (p0 : Param) (rest : list Param) :
  init_signature cls = p0 :: rest →
  ∃ n_args n_kwargs,
    parse_class_init_keys cls = Ok (name p0, n_args, n_kwargs) ∧
    first_of_kind (init_signature cls) VAR_POSITIONAL n_args ∧
    first_of_kind (init_signature cls) VAR_KEYWORD n_kwargs.
Proof.
  intros Hsig.
  exists (_get_first_if_any (init_signature cls) VAR_POSITIONAL),
         (_get_first_if_any (init_signature cls) VAR_KEYWORD).
  split; [| split; apply _get_first_if_any_spec].
  unfold parse_class_init_keys. by rewrite Hsig.
Qed.

End ParseClassInitKeys.

Lemma parse_class_init_keys_spec_witness :
  ∃ n_args n_kwargs,
    parsing.parse_class_init_keys
      (parsing.MkClass "Model"
         [ parsing.MkParam "self" parsing.POSITIONAL_OR_KEYWORD;
           parsing.MkParam "my_kwargs" parsing.VAR_KEYWORD ])
    = Ok ("self", n_args, n_kwargs).
Proof.
  destruct (parse_class_init_keys_spec
              (parsing.MkClass "Model"
                 [ parsing.MkParam "self" parsing.POSITIONAL_OR_KEYWORD;
                   parsing.MkParam "my_kwargs" parsing.VAR_KEYWORD ])
              (parsing.MkParam "self" parsing.POSITIONAL_OR_KEYWORD)
              [ parsing.MkParam "my_kwargs" parsing.VAR_KEYWORD ]
              eq_refl) as (a & k & H & _).
  exists a, k. exact H.
Defined.

(** ** [AttributeDict] *)
Section AttributeDictSpec.
Import parsing.AttributeDict.
Variable object_getattribute : string → option PyVal.

(** The doctest of the class: [ad.key1] reads the item, [ad.key1 = 2]
    replaces it. *)
Example attribute_dict_doctest :
  let ad : gmap string PyVal := {[ "key1" := PyInt 1; "key2" := PyStr "abc" ]} in
  getattr class_lookup ad "key1" = Ok (PyInt 1) ∧
  dict_getitem (setattr ad "key1" (PyInt 2)) "key1" = Ok (PyInt 2).
Proof. split; reflexivity. Qed.

Lemma KeyError_is_not_AttributeError : issubclass KeyError AttributeError = false.
Proof. reflexivity. Qed.

(** The hook itself, whatever the key: it returns the item when there is
    one, and turns the [KeyError] into an [AttributeError] otherwise. *)
Lemma __getattr___present (ad : gmap string PyVal) (k : string) (v : PyVal) :
  ad !! k = Some v → __getattr__ ad k = Ok v.
Proof. intros H. unfold __getattr__, dict_getitem. by rewrite H. Qed.

Lemma __getattr___missing (ad : gmap string PyVal) (k : string) :
  ad !! k = None →
  __getattr__ ad k =
    raise_from AttributeError ("Missing attribute " +:+ dquote +:+ k +:+ dquote)
               (MkExn KeyError k None).
Proof. intros H. unfold __getattr__, dict_getitem. by rewrite H. Qed.

Lemma __getattr___never_KeyError (ad : gmap string PyVal) (k : string) :
  raised_class (__getattr__ ad k) ≠ Some KeyError.
Proof.
  destruct (ad !! k) as [v |] eqn:H.
  - by rewrite (__getattr___present _ _ _ H).
  - by rewrite (__getattr___missing _ _ H).
Qed.

(** C5, as stated, fails on a key that is also the name of a method of the
    class: with ['items'] among the keys, [ad.items] is the bound method and
    not [ad['items']], also right after [ad.items = 5]. *)
Lemma attribute_access_shadowed_by_method :
  let ad : gmap string PyVal := {[ "items" := PyInt 1 ]} in
  dict_getitem ad "items" = Ok (PyInt 1) ∧
  getattr class_lookup ad "items" ≠ dict_getitem ad "items" ∧
  dict_getitem (setattr ad "items" (PyInt 5)) "items" = Ok (PyInt 5) ∧
  getattr class_lookup (setattr ad "items" (PyInt 5)) "items" ≠ Ok (PyInt 5).
Proof.
  cbn zeta. split; [reflexivity |]. split; [vm_compute; discriminate |].
  split; [reflexivity | vm_compute; discriminate].
Qed.

(** C5 (amended).  For every AttributeDict [ad], key [k] and value [v]:
    the assignment [ad.k = v] is the item assignment [ad[k] = v], after
    which [ad[k]] equals [v]; and when [k] is not the name of an attribute
    that ordinary lookup finds on the class, [ad.k] returns [ad[k]] whenever
    [k] is a key, so that reading [ad.k] after [ad.k = v] returns [v]. *)
Theorem attribute_dict_set_get (ad : gmap string PyVal) (k : string) (v : PyVal) :
  setattr ad k v = __setitem__ ad k v ∧
  dict_getitem (setattr ad k v) k = Ok v ∧
  (object_getattribute k = None →
     (∀ w, ad !! k = Some w →
        getattr object_getattribute ad k = Ok w ∧
        getattr object_getattribute ad k = dict_getitem ad k) ∧
     getattr object_getattribute (setattr ad k v) k = Ok v).
Proof.
  split; [reflexivity |]. split.
  - unfold setattr, __setattr__, __setitem__, dict_getitem.
    by rewrite lookup_insert_eq.
  - intros Hk. unfold getattr. rewrite Hk. split.
    + intros w Hw. rewrite (__getattr___present _ _ _ Hw).
      unfold dict_getitem. by rewrite Hw.
    + apply __getattr___present. unfold setattr, __setattr__, __setitem__.
      by rewrite lookup_insert_eq.
Qed.

(** C6, as stated, fails on the name of a method of the class: ['keys'] is
    not a key of the empty AttributeDict, yet [ad.keys] raises nothing. *)
Lemma attribute_access_missing_key_method :
  let ad : gmap string PyVal := ∅ in
  ad !! "keys" = None ∧
  getattr class_lookup ad "keys" = Ok (PyMethod "keys") ∧
  raised_class (getattr class_lookup ad "keys") ≠ Some AttributeError.
Proof.
  cbn zeta. split; [reflexivity |]. split; vm_compute; [reflexivity | discriminate].
Qed.

(** C6 (amended).  For every AttributeDict [ad] and every key [k]: [ad.k]
    never raises [KeyError]; and when [k] is not present in [ad] and is not
    the name of an attribute that ordinary lookup finds on the class,
    [ad.k] raises an [AttributeError] whose cause is the caught [KeyError]. *)
Theorem attribute_dict_missing (ad : gmap string PyVal) (k : string) :
  raised_class (getattr object_getattribute ad k) ≠ Some KeyError ∧
  (ad !! k = None → object_getattribute k = None →
     ∃ e, getattr object_getattribute ad k = Raise e ∧
          exc_class e = AttributeError ∧
          exc_cause e = Some (MkExn KeyError k None)).
Proof.
  split.
  - unfold getattr. destruct (object_getattribute k); [done |].
    apply __getattr___never_KeyError.
  - intros Hmiss Hk. unfold getattr. rewrite Hk, (__getattr___missing _ _ Hmiss).
    eexists. split; [reflexivity |]. by split.
Qed.

End AttributeDictSpec.

Lemma attribute_dict_set_get_witness :
  parsing.AttributeDict.getattr parsing.AttributeDict.class_lookup
    (parsing.AttributeDict.setattr ∅ "learning_rate" (PyInt 3)) "learning_rate"
  = Ok (PyInt 3).
Proof.
  apply (attribute_dict_set_get parsing.AttributeDict.class_lookup
           ∅ "learning_rate" (PyInt 3)).
  vm_compute. reflexivity.
Defined.

Lemma attribute_dict_missing_witness :
  ∃ e, parsing.AttributeDict.getattr parsing.AttributeDict.class_lookup
         ({[ "key1" := PyInt 1 ]} : gmap string PyVal) "key2" = Raise e ∧
       exc_class e = AttributeError.
Proof.
  destruct (attribute_dict_missing parsing.AttributeDict.class_lookup
              {[ "key1" := PyInt 1 ]} "key2") as [_ H].
  destruct H as (e & He & Hc & _); [reflexivity | vm_compute; reflexivity |].
  exists e. by split.
Defined.

(** ** [is_picklable], [clean_namespace] *)
Section CleanNamespaceSpec.
Import parsing.
Variable pickle_dumps : PyVal → Result string.

(** [is_picklable] answers exactly when pickling succeeds or fails with a
    [PickleError] or an [AttributeError]; any other exception escapes. *)
Lemma is_picklable_cases (obj : PyVal) :
  is_picklable pickle_dumps obj =
    match pickle_dumps obj with
    | Ok _ => Ok true
    | Raise e =>
        if issubclass (exc_class e) PickleError || issubclass (exc_class e) AttributeError
        then Ok false else Raise e
    end.
Proof.
  unfold is_picklable, exc_matches. destruct (pickle_dumps obj); [done |].
  cbn. by rewrite orb_false_r.
Qed.

Lemma del_attrs_of_decided (items : list (string * PyVal)) :
  Forall (λ kv, ∃ b, is_picklable pickle_dumps kv.2 = Ok b) items →
  del_attrs_of pickle_dumps items
  = Ok ((filter (λ kv, unpicklable pickle_dumps kv.2) items).*1).
Proof.
  induction 1 as [| [k v] items [b Hb] _ IH]; [done |].
  cbn [del_attrs_of snd] in *. rewrite Hb, bind_Ok, IH, bind_Ok.
  assert (Hu : unpicklable pickle_dumps v = negb b).
  { unfold unpicklable. rewrite Hb. by destruct b. }
  rewrite filter_cons. cbn [snd]. rewrite Hu. by destruct b.
Qed.

Lemma del_attrs_of_escapes (items : list (string * PyVal)) :
  Exists (λ kv, ∃ e, is_picklable pickle_dumps kv.2 = Raise e) items →
  ∃ e, del_attrs_of pickle_dumps items = Raise e.
Proof.
  induction 1 as [[k v] items [e He] | [k v] items _ [e IH]]; cbn in *.
  - rewrite He. by exists e.
  - destruct (is_picklable pickle_dumps v) as [b | e']; cbn.
    + rewrite IH. by exists e.
    + by exists e'.
Qed.

Lemma del_loop_deletes (ks : list string) (d : gmap string PyVal) (w : list string) :
  NoDup ks → (∀ k, k ∈ ks → is_Some (d !! k)) →
  del_loop ks d w
  = (foldl (λ d k, delete k d) d ks, w ++ (removed_warning <$> ks), Ok ()).
Proof.
  intros Hnd. revert d w.
  induction Hnd as [| k ks Hk Hnd IH]; intros d w Hin; cbn.
  - by rewrite app_nil_r.
  - destruct (Hin k) as [v Hv]; [by left |].
    unfold dict_delitem. rewrite Hv.
    rewrite IH.
    + by rewrite <- app_assoc.
    + intros k' Hk'. rewrite lookup_delete_ne; [| by intros ->].
      apply Hin. by right.
Qed.

Lemma lookup_foldl_delete (ks : list string) (d : gmap string PyVal) (i : string) :
  foldl (λ d k, delete k d) d ks !! i = if decide (i ∈ ks) then None else d !! i.
Proof.
  revert d. induction ks as [| k ks IH]; intros d; cbn [foldl].
  - rewrite decide_False; [done |]. apply not_elem_of_nil.
  - rewrite IH. destruct (decide (i ∈ ks)) as [Hin | Hnin].
    + rewrite decide_True; [done | by right].
    + destruct (decide (i = k)) as [-> | Hne].
      * rewrite lookup_delete_eq, decide_True; [done | by left].
      * rewrite lookup_delete_ne by done. rewrite decide_False; [done |].
        intros [? | ?]%elem_of_cons; done.
Qed.

(** When [is_picklable] answers for every value, [clean_namespace] returns
    normally and leaves exactly the entries on which it answered [True],
    with their values, in the same object. *)
Lemma clean_namespace_decided (hparams : HParams) :
  (∀ k v, hparams_dict_of hparams !! k = Some v →
          ∃ b, is_picklable pickle_dumps v = Ok b) →
  let c := clean_namespace pickle_dumps hparams in
  cleaned_outcome c = Ok () ∧
  cleaned_hparams c = hparams_with_dict hparams (hparams_dict_of (cleaned_hparams c)) ∧
  (∀ k, hparams_dict_of (cleaned_hparams c) !! k
        = v ← hparams_dict_of hparams !! k;
          if unpicklable pickle_dumps v then None else Some v).
Proof.
  intros Hdec. unfold clean_namespace.
  set (d := hparams_dict_of hparams) in *.
  rewrite del_attrs_of_decided.
  2:{ apply Forall_forall. intros [k v] Hkv. apply elem_of_map_to_list in Hkv. eauto. }
  set (ks := (filter _ (map_to_list d)).*1).
  assert (Hks : ∀ k, k ∈ ks ↔ ∃ v, d !! k = Some v ∧ unpicklable pickle_dumps v).
  { intros k. unfold ks. rewrite list_elem_of_fmap. split.
    - intros ([k' v] & -> & Hin). apply list_elem_of_filter in Hin as [Hu Hin].
      apply elem_of_map_to_list in Hin. eauto.
    - intros (v & Hv & Hu). exists (k, v). split; [done |].
      apply list_elem_of_filter. split; [done |]. by apply elem_of_map_to_list. }
  rewrite del_loop_deletes.
  - cbn. split; [done |]. split; [by destruct hparams |].
    intros k. replace (hparams_dict_of (hparams_with_dict hparams _))
      with (foldl (λ d k, delete k d) d ks) by (by destruct hparams).
    rewrite lookup_foldl_delete. case_decide as Hk.
    + apply Hks in Hk as (v & -> & Hu). cbn. by destruct (unpicklable _ v).
    + destruct (d !! k) as [v |] eqn:Hv; [| done]. cbn.
      destruct (unpicklable pickle_dumps v) eqn:Hu; [| done].
      exfalso. apply Hk, Hks. exists v. by rewrite Hu.
  - unfold ks. apply (NoDup_fmap_fst (filter _ (map_to_list d))).
    + intros k v1 v2 H1 H2.
      apply list_elem_of_filter in H1 as [_ H1]. apply list_elem_of_filter in H2 as [_ H2].
      apply elem_of_map_to_list in H1, H2. congruence.
    + apply NoDup_filter, NoDup_map_to_list.
  - intros k Hk. apply Hks in Hk as (v & Hv & _). by exists v.
Qed.

(** When [is_picklable] raises on some value, the exception leaves
    [clean_namespace] before any entry is deleted. *)
Lemma clean_namespace_escapes (hparams : HParams) (k : string) (v : PyVal) (e : Exn) :
  hparams_dict_of hparams !! k = Some v →
  is_picklable pickle_dumps v = Raise e →
  let c := clean_namespace pickle_dumps hparams in
  cleaned_hparams c = hparams ∧ cleaned_warnings c = [] ∧
  ∃ e', cleaned_outcome c = Raise e'.
Proof.
  intros Hk He. unfold clean_namespace.
  destruct (del_attrs_of_escapes (map_to_list (hparams_dict_of hparams))) as [e' ->].
  - apply Exists_exists. exists (k, v). split; [| by exists e].
    by apply elem_of_map_to_list.
  - cbn. repeat split. by exists e'.
Qed.

End CleanNamespaceSpec.

(** C4.  [clean_namespace] on [{'f': <lambda>, 'lock': <lock>}], where
    pickling the lambda fails with [PicklingError] and pickling the lock
    with [TypeError]: [is_picklable] returns [False] on the lambda and lets
    the [TypeError] through on the lock, and [clean_namespace] ends with that
    [TypeError] with both entries still in the dictionary, the unpicklable
    ['f'] included. *)
Theorem clean_namespace_TypeError_leaves_unpicklable :
  let hparams :=
    parsing.HDict {[ "f" := PyObject "lambda"; "lock" := PyObject "lock" ]} in
  let c := parsing.clean_namespace parsing.pickle_dumps_sample hparams in
  parsing.is_picklable parsing.pickle_dumps_sample (PyObject "lambda") = Ok false ∧
  raised_class (parsing.is_picklable parsing.pickle_dumps_sample (PyObject "lock"))
    = Some TypeError ∧
  raised_class (parsing.cleaned_outcome c) = Some TypeError ∧
  parsing.cleaned_hparams c = hparams ∧
  parsing.hparams_dict_of (parsing.cleaned_hparams c) !! "f" = Some (PyObject "lambda").
Proof. cbn zeta. repeat split; vm_compute; reflexivity. Qed.

(** On a dictionary without such a value the unpicklable entries go and the
    others stay. *)
Example clean_namespace_sample :
  let hparams :=
    parsing.HNamespace {[ "lr" := PyInt 3; "f" := PyObject "lambda";
                          "g" := PyObject "local function" ]} in
  let c := parsing.clean_namespace parsing.pickle_dumps_sample hparams in
  parsing.cleaned_outcome c = Ok () ∧
  parsing.cleaned_hparams c = parsing.HNamespace {[ "lr" := PyInt 3 ]}.
Proof. cbn zeta. split; vm_compute; reflexivity. Qed.

(** ** [get_init_args], [collect_init_args] *)
Section CollectInitArgsSpec.
Import parsing.

Lemma mapM_Ok_Forall2 {A B} (f : A → Result B) (l : list A) (k : list B) :
  mapM f l = Ok k → Forall2 (λ x y, f x = Ok y) l k.
Proof.
  revert k. induction l as [| x l IH]; intros k; cbn.
  - intros [= <-]. constructor.
  - destruct (f x) as [y | e] eqn:Hx; [| done]. rewrite bind_Ok.
    destruct (mapM f l) as [k' | e]; [| done]. rewrite bind_Ok.
    intros [= <-]. constructor; [done | by apply IH].
Qed.

Lemma Forall2_mapM_Ok {A B} (f : A → Result B) (l : list A) (k : list B) :
  Forall2 (λ x y, f x = Ok y) l k → mapM f l = Ok k.
Proof.
  induction 1 as [| x y l k Hxy _ IH]; [done |].
  cbn. by rewrite Hxy, bind_Ok, IH.
Qed.

Lemma mapM_Raise_first {A B} (f : A → Result B) (l : list A) (e : Exn) :
  mapM f l = Raise e ↔
  ∃ before x after,
    l = before ++ x :: after ∧ Forall (λ y, ∃ b, f y = Ok b) before ∧ f x = Raise e.
Proof.
  induction l as [| x l IH]; cbn.
  { split; [done |]. intros (before & y & after & Heq & _). by destruct before. }
  assert (Hsplit :
    (∃ before y after,
       x :: l = before ++ y :: after ∧ Forall (λ y, ∃ b, f y = Ok b) before ∧
       f y = Raise e)
    ↔ (f x = Raise e ∨ ((∃ b, f x = Ok b) ∧ mapM f l = Raise e))).
  { rewrite IH. split.
    - intros ([| x' before] & y & after & Heq & Hbefore & Hy); simplify_eq/=.
      + by left.
      + apply Forall_cons in Hbefore as [Hx' Hbefore]. right. split; [done |].
        by exists before, y, after.
    - intros [Hx | [Hx (before & y & after & -> & Hbefore & Hy)]].
      + exists [], x, l. split; [done |]. split; [constructor | done].
      + exists (x :: before), y, after. split; [done |]. split; [by constructor | done]. }
  rewrite Hsplit. destruct (f x) as [b | e']; cbn.
  - destruct (mapM f l) as [k | e'']; cbn.
    + split; [intros H; discriminate H |]. intros [H | [_ H]]; discriminate H.
    + split.
      * intros [= ->]. right. split; [by exists b | done].
      * intros [H | [_ [= ->]]]; [discriminate H | done].
  - split; [intros [= ->]; by left |]. intros [[= ->] | [[? H] _]]; [done | discriminate H].
Qed.

Lemma _get_first_if_any_name (params : list Param) (k : ParameterKind) (n : string) :
  _get_first_if_any params k = Some n → n ∈ name <$> params.
Proof.
  induction params as [| p params IH]; [done |]. cbn.
  case_bool_decide; [intros [= <-]; by left | intros Hn; right; by apply IH].
Qed.

Lemma collect_locals_returns (local_vars : gmap string PyVal) (keys : list string) :
  ∀ acc, (∀ k, k ∈ keys → is_Some (local_vars !! k)) →
  ∃ local_args,
    collect_locals local_vars keys acc = Ok local_args ∧
    ∀ k, local_args !! k = if decide (k ∈ keys) then local_vars !! k else acc !! k.
Proof.
  induction keys as [| k0 keys IH]; intros acc Hkeys.
  - exists acc. split; [done |]. intros k. rewrite decide_False; [done |].
    apply not_elem_of_nil.
  - destruct (Hkeys k0) as [v Hv]; [by left |].
    destruct (IH (<[k0 := v]> acc)) as (la & Hrun & Hla).
    { intros k Hk. apply Hkeys. by right. }
    exists la. split.
    { cbn [collect_locals]. unfold dict_getitem. by rewrite Hv, bind_Ok. }
    intros k. rewrite Hla. destruct (decide (k ∈ keys)) as [Hin | Hnin].
    + rewrite decide_True; [done | by right].
    + destruct (decide (k = k0)) as [-> | Hne].
      * rewrite lookup_insert_eq, decide_True; [done | by left].
      * rewrite lookup_insert_ne by done. rewrite decide_False; [done |].
        intros [? | ?]%elem_of_cons; done.
Qed.

(** [get_init_args] returns on the frame of a constructor whose signature
    has a first parameter, whose parameters are all among the locals, and
    whose var-keyword parameter, if any, is bound to a dictionary. *)
Lemma get_init_args_returns (cls : PyClass) (local_vars : gmap string PyVal)
    (back : option Frame) (p0 : Param) (rest : list Param) :
  init_signature cls = p0 :: rest →
  (∀ p, p ∈ init_signature cls → is_Some (local_vars !! name p)) →
  (∀ kw, _get_first_if_any (init_signature cls) VAR_KEYWORD = Some kw →
         ∃ d, local_vars !! kw = Some (PyDict d)) →
  ∃ local_args, get_init_args (MkFrame (Some cls) local_vars back) = Ok local_args.
Proof.
  intros Hsig Hlocals Hkw.
  unfold get_init_args, parse_class_init_keys. cbn [f_class f_locals].
  rewrite Hsig, bind_Ok, <- Hsig.
  destruct (collect_locals_returns local_vars (name <$> init_signature cls) ∅)
    as (la & -> & Hla).
  { intros k (p & -> & Hp)%list_elem_of_fmap. by apply Hlocals. }
  rewrite bind_Ok.
  destruct (_get_first_if_any (init_signature cls) VAR_KEYWORD) as [kw |] eqn:Hfirst.
  - cbn [truthy_name default]. destruct (negb (bool_decide (kw = ""))).
    + destruct (Hkw kw eq_refl) as [d Hd]. change (id kw) with kw.
      rewrite Hla, decide_True, Hd by (by apply _get_first_if_any_name in Hfirst).
      cbn. by eexists.
    + rewrite bind_Ok. by eexists.
  - cbn [truthy_name]. rewrite bind_Ok. by eexists.
Qed.

Lemma inheritance_path_root (c : option PyClass) (l : gmap string PyVal) (inside : bool) :
  inheritance_path (MkFrame c l None) inside = [].
Proof. unfold inheritance_path. by destruct inside. Qed.

Lemma inheritance_path_class (c : PyClass) (l : gmap string PyVal) (back : Frame)
    (inside : bool) :
  inheritance_path (MkFrame (Some c) l (Some back)) inside
  = MkFrame (Some c) l (Some back) :: inheritance_path back true.
Proof. unfold inheritance_path. by destruct inside. Qed.

Lemma inheritance_path_skip (l : gmap string PyVal) (back : Frame) :
  inheritance_path (MkFrame None l (Some back)) false = inheritance_path back false.
Proof. reflexivity. Qed.

Lemma inheritance_path_stop (l : gmap string PyVal) (back : Frame) :
  inheritance_path (MkFrame None l (Some back)) true = [].
Proof. reflexivity. Qed.

(** The function is the walk: the dictionaries of the frames on the
    inheritance path, computed in order by [get_init_args], are appended to
    [path_args]; an exception of [get_init_args] ends the walk. *)
Lemma collect_init_args_walk (frame : Frame) (path_args : list (gmap string PyVal))
    (inside : bool) :
  collect_init_args frame path_args inside
  = ds ← mapM get_init_args (inheritance_path frame inside); Ok (path_args ++ ds).
Proof.
  revert path_args inside.
  induction frame as [c l | c l back IH] using Frame_chain_ind; intros path_args inside.
  - rewrite inheritance_path_root. cbn. by rewrite app_nil_r.
  - destruct c as [c |].
    + rewrite inheritance_path_class.
      cbn [collect_init_args has_class f_class mapM].
      destruct (get_init_args (MkFrame (Some c) l (Some back))) as [d | e]; [| done].
      rewrite !bind_Ok, IH.
      destruct (mapM get_init_args (inheritance_path back true)) as [ds | e]; [| done].
      rewrite !bind_Ok. cbn. by rewrite <- app_assoc.
    + destruct inside.
      * rewrite inheritance_path_stop. cbn. by rewrite app_nil_r.
      * rewrite inheritance_path_skip. cbn [collect_init_args has_class f_class negb].
        apply IH.
Qed.

(** The inheritance path is a run of consecutive frames of the chain. *)
Lemma inheritance_path_segment (frame : Frame) (inside : bool) :
  ∃ skipped rest,
    frames_with_parent frame = skipped ++ inheritance_path frame inside ++ rest ∧
    Forall (λ f, has_class f = false) skipped ∧
    (inside = true → skipped = []) ∧
    Forall (λ f, has_class f = true) (inheritance_path frame inside) ∧
    match rest with
    | [] => True
    | f :: _ => has_class f = false ∧ (inside = true ∨ inheritance_path frame inside ≠ [])
    end.
Proof.
  revert inside.
  induction frame as [c l | c l back IH] using Frame_chain_ind; intros inside.
  - exists [], []. rewrite inheritance_path_root. by repeat split.
  - destruct c as [c |].
    + rewrite inheritance_path_class.
      destruct (IH true) as (skipped & rest & Heq & _ & Hsk & Hpath & Hrest).
      rewrite (Hsk eq_refl) in Heq. cbn in Heq.
      exists [], rest. cbn [frames_with_parent app]. rewrite Heq.
      split; [done |]. split; [done |]. split; [done |].
      split; [by constructor |].
      destruct rest as [| f rest]; [done |]. destruct Hrest as [Hf _].
      split; [done |]. by right.
    + destruct inside.
      * rewrite inheritance_path_stop.
        exists [], (frames_with_parent (MkFrame None l (Some back))).
        repeat split; try done. by left.
      * rewrite inheritance_path_skip.
        destruct (IH false) as (skipped & rest & Heq & Hskip & _ & Hpath & Hrest).
        exists (MkFrame None l (Some back) :: skipped), rest.
        cbn [frames_with_parent app]. rewrite Heq.
        split; [done |]. split; [by constructor |]. split; [done |].
        split; [done |].
        destruct rest as [| f rest]; [done |]. destruct Hrest as [Hf [? | Hne]]; [done |].
        split; [done |]. by right.
Qed.

Lemma last_Forall2 {A B} (R : A → B → Prop) (l : list A) (k : list B) (x : A) :
  Forall2 R l k → last l = Some x → ∃ y, last k = Some y ∧ R x y.
Proof.
  induction 1 as [| a b l k Hab Hlk IH]; [done |].
  destruct Hlk as [| a' b' l k Hab' Hlk].
  - intros [= <-]. by exists b.
  - intros Hl. cbn in Hl. destruct (IH Hl) as (y & Hy & HR). by exists y.
Qed.



End CollectInitArgsSpec.

Example get_init_args_Base :
  parsing.get_init_args Base_init_frame
  = Ok {[ "lr" := PyInt 3; "momentum" := PyInt 9 ]}.
Proof. vm_compute. reflexivity. Qed.

Example get_init_args_no_class : parsing.get_init_args caller_frame = Ok ∅.
Proof. reflexivity. Qed.


(** With [inside = True] the same start frame, which has no [__class__],
    ends the walk at once. *)
Example collect_init_args_inside :
  parsing.collect_init_args helper_frame [] true = Ok [].
Proof. reflexivity. Qed.

(** The frame without a parent ends the walk before its own locals are
    looked at. *)
Example collect_init_args_at_root :
  parsing.collect_init_args
    (parsing.MkFrame (Some Base_class) {[ "self" := PyObject "model" ]} None)
    [ ∅ ] false
  = Ok [ ∅ ].
Proof. reflexivity. Qed.

(** ** [lightning_hasattr], [lightning_getattr], [lightning_setattr] *)
Section LightningAttrSpec.
Import parsing.
Variable builtin_attr : Val → string → option Val.
Implicit Types (h : gmap nat Obj) (o model holder value : Val).
Implicit Types (attribute name : string) (holders ws : list Val).

#[local] Abbreviation py_getattr := (parsing.py_getattr builtin_attr).
#[local] Abbreviation py_hasattr := (parsing.py_hasattr builtin_attr).
#[local] Abbreviation py_getattr_default := (parsing.py_getattr_default builtin_attr).
#[local] Abbreviation _lightning_get_all_attr_holders :=
  (parsing._lightning_get_all_attr_holders builtin_attr).
#[local] Abbreviation _lightning_get_first_attr_holder :=
  (parsing._lightning_get_first_attr_holder builtin_attr).
#[local] Abbreviation lightning_hasattr := (parsing.lightning_hasattr builtin_attr).
#[local] Abbreviation lightning_getattr := (parsing.lightning_getattr builtin_attr).
#[local] Abbreviation lightning_setattr := (parsing.lightning_setattr builtin_attr).
#[local] Abbreviation read_holder := (read_holder builtin_attr).
#[local] Abbreviation holds := (holds builtin_attr).
#[local] Abbreviation links_kept := (links_kept builtin_attr).
#[local] Abbreviation hparams_part := (hparams_part builtin_attr).
#[local] Abbreviation datamodule_part := (datamodule_part builtin_attr).

(** What the primitives observe of the heap: the kind of the object, what
    its class defines under the name asked for, and its entry there. *)
Lemma isinstance_dict_view h o :
  isinstance_dict h o = match kind_of h o with Some DictObj => true | _ => false end.
Proof. destruct o as [| | | | l]; try done. cbn. by destruct (h !! l) as [[[| |] ? ?] |]. Qed.

Lemma py_getattr_view h o name :
  py_getattr h o name =
    match o with
    | VRef _ =>
        match kind_of h o with
        | Some k =>
            match class_attr h o name with
            | Some (ReadOnlyProperty v) => Ok v
            | found =>
                match (match k with DictObj => None | _ => slot h o name end) with
                | Some v => Ok v
                | None =>
                    match found with
                    | Some (ClassValue v) => Ok v
                    | _ => no_attribute name
                    end
                end
            end
        | None => no_attribute name
        end
    | _ =>
        match builtin_attr o name with
        | Some v => Ok v
        | None => no_attribute name
        end
    end.
Proof.
  destruct o as [| | | | l]; try done. cbn.
  destruct (h !! l) as [[k cls es] |]; [| done]. cbn. unfold instance_attr. cbn.
  by destruct (cls !! name) as [[? | ?] |], k.
Qed.

Lemma py_getattr_ext h h' o name :
  kind_of h' o = kind_of h o →
  class_attr h' o name = class_attr h o name →
  slot h' o name = slot h o name →
  py_getattr h' o name = py_getattr h o name.
Proof. rewrite !py_getattr_view. by intros -> -> ->. Qed.

Lemma py_hasattr_getattr h o name :
  py_hasattr h o name = true ↔ ∃ v, py_getattr h o name = Ok v.
Proof.
  unfold parsing.py_hasattr. destruct (py_getattr h o name) as [v | e].
  - split; [by exists v | done].
  - split; [done | by intros [? ?]].
Qed.

Lemma py_getitem_view h o name :
  py_getitem h o name =
    match kind_of h o with
    | Some DictObj =>
        match slot h o name with Some v => Ok v | None => raise KeyError name end
    | _ => raise TypeError "object is not subscriptable"
    end.
Proof.
  unfold py_getitem, dict_getitem. destruct o as [| | | | l]; try done. cbn.
  by destruct (h !! l) as [[[| |] ? ?] |].
Qed.

Lemma py_contains_view h o name :
  py_contains h o name =
    match o with
    | VStr s => Ok (match String.index 0 name s with Some _ => true | None => false end)
    | _ =>
        match kind_of h o with
        | Some DictObj | Some NamespaceObj => Ok (bool_decide (is_Some (slot h o name)))
        | _ => raise TypeError "argument is not iterable"
        end
    end.
Proof.
  unfold py_contains. destruct o as [| | | | l]; try done. cbn.
  by destruct (h !! l) as [[[| |] ? ?] |].
Qed.

Lemma accepts_assignment_heap h o attribute :
  accepts_assignment h o attribute = true → kind_of h o ≠ None ∧ ∃ l, o = VRef l.
Proof.
  unfold accepts_assignment. destruct (kind_of h o) as [k |] eqn:Hk; [| done].
  intros _. split; [done |]. destruct o as [| | | | l]; try done. by exists l.
Qed.

(** One assignment of the loop, when the holder accepts it, stores the
    value there and nowhere else. *)
Lemma write_one h o attribute value :
  accepts_assignment h o attribute = true →
  ∃ h', (if isinstance_dict h o then py_setitem h o attribute value
         else py_setattr h o attribute value) = Ok h' ∧
        stored_in h h' [o] attribute value.
Proof.
  unfold accepts_assignment.
  destruct o as [| | | | l]; try done. cbn.
  destruct (h !! l) as [[k cls es] |] eqn:Hl; [| done]. cbn. intros Hacc.
  exists (<[l := MkObj k cls (<[attribute := value]> es)]> h). split.
  { destruct k; [done | |]; by destruct (cls !! attribute) as [[? | ?] |]. }
  split; [| split].
  - intros [| | | | l']; try done. cbn.
    destruct (decide (l = l')) as [<- | Hne].
    + by rewrite lookup_insert_eq, Hl.
    + by rewrite lookup_insert_ne.
  - intros [| | | | l'] name; try done. cbn.
    destruct (decide (l = l')) as [<- | Hne].
    + by rewrite lookup_insert_eq, Hl.
    + by rewrite lookup_insert_ne.
  - intros o name. case_bool_decide as Hw.
    + destruct Hw as [Ho ->]. apply list_elem_of_singleton in Ho as ->.
      cbn. rewrite lookup_insert_eq. cbn. by rewrite lookup_insert_eq.
    + destruct o as [| | | | l']; try done. cbn.
      destruct (decide (l = l')) as [<- | Hne].
      * rewrite lookup_insert_eq, Hl. cbn.
        rewrite lookup_insert_ne; [done |].
        intros <-. apply Hw. split; [by apply list_elem_of_singleton | done].
      * by rewrite lookup_insert_ne.
Qed.

(** A holder that does not accept the assignment ends the loop with an
    [AttributeError]: a value of a builtin type and a string have no
    attribute to set, a property without a setter refuses. *)
Lemma refuse_one h o attribute value :
  accepts_assignment h o attribute = false →
  ∃ e, (if isinstance_dict h o then py_setitem h o attribute value
        else py_setattr h o attribute value) = Raise e ∧
       exc_class e = AttributeError.
Proof.
  unfold accepts_assignment.
  destruct o as [| | | | l]; try (intros _; by eexists). cbn.
  destruct (h !! l) as [[k cls es] |] eqn:Hl; [| intros _; by eexists]. cbn.
  destruct k; [done | |]; destruct (cls !! attribute) as [[? | ?] |]; try done;
    intros _; by eexists.
Qed.

Lemma accepts_assignment_ext h h' o attribute :
  kind_of h' o = kind_of h o →
  class_attr h' o attribute = class_attr h o attribute →
  accepts_assignment h' o attribute = accepts_assignment h o attribute.
Proof. unfold accepts_assignment. by intros -> ->. Qed.

Lemma stored_in_nil h attribute value : stored_in h h [] attribute value.
Proof.
  split; [done |]. split; [done |]. intros o name.
  rewrite bool_decide_eq_false_2; [done |]. intros [Ho _]. by apply elem_of_nil in Ho.
Qed.

Lemma stored_in_cons h h1 h' o ws attribute value :
  stored_in h h1 [o] attribute value →
  stored_in h1 h' ws attribute value →
  stored_in h h' (o :: ws) attribute value.
Proof.
  intros (Hk1 & Hc1 & Hs1) (Hk' & Hc' & Hs'). split; [| split].
  - intros o'. by rewrite Hk', Hk1.
  - intros o' name. by rewrite Hc', Hc1.
  - intros o' name. rewrite Hs', Hs1.
    destruct (decide (o' ∈ ws ∧ name = attribute)) as [Hin | Hnin].
    + rewrite (bool_decide_eq_true_2 _ Hin).
      rewrite bool_decide_eq_true_2; [done |].
      destruct Hin as [Hin ->]. split; [by right | done].
    + rewrite (bool_decide_eq_false_2 _ Hnin).
      destruct (decide (o' ∈ [o] ∧ name = attribute)) as [Hin1 | Hnin1].
      * rewrite (bool_decide_eq_true_2 _ Hin1).
        rewrite bool_decide_eq_true_2; [done |].
        destruct Hin1 as [Ho' ->]. apply list_elem_of_singleton in Ho' as ->.
        split; [by left | done].
      * rewrite (bool_decide_eq_false_2 _ Hnin1).
        rewrite bool_decide_eq_false_2; [done |].
        intros [Hin ->]. apply elem_of_cons in Hin as [-> | Hin].
        -- apply Hnin1. split; [by apply list_elem_of_singleton | done].
        -- apply Hnin. by split.
Qed.

(** The loop of [lightning_setattr] over holders that accept the
    assignment runs to its end and stores the value in each of them. *)
Lemma set_in_holders_stores ws : ∀ h attribute value,
  Forall (λ o, accepts_assignment h o attribute = true) ws →
  ∃ h', set_in_holders h ws attribute value = (h', Ok ()) ∧
        stored_in h h' ws attribute value.
Proof.
  induction ws as [| o ws IH]; intros h attribute value Hws.
  - exists h. split; [done | apply stored_in_nil].
  - apply Forall_cons in Hws as [Ho Hws].
    destruct (write_one h o attribute value Ho) as (h1 & Hw & Hst1).
    destruct (IH h1 attribute value) as (h' & Hset & Hst').
    { eapply Forall_impl; [exact Hws |]. intros o' Ho'. cbn in *.
      rewrite (accepts_assignment_ext h h1); [done | apply Hst1 | apply Hst1]. }
    exists h'. split.
    { cbn [set_in_holders]. by rewrite Hw. }
    by eapply stored_in_cons.
Qed.

(** With a holder that refuses, the loop ends with an [AttributeError],
    after the writes to the holders before the first that refuses. *)
Lemma set_in_holders_refused ws : ∀ h attribute value,
  Exists (λ o, accepts_assignment h o attribute = false) ws →
  ∃ before o after h',
    ws = before ++ o :: after ∧
    Forall (λ o, accepts_assignment h o attribute = true) before ∧
    accepts_assignment h o attribute = false ∧
    stored_in h h' before attribute value ∧
    (set_in_holders h ws attribute value).1 = h' ∧
    raised_class (set_in_holders h ws attribute value).2 = Some AttributeError.
Proof.
  induction ws as [| o ws IH]; intros h attribute value Hex.
  { by apply Exists_nil in Hex. }
  destruct (accepts_assignment h o attribute) eqn:Ho.
  - apply Exists_cons in Hex as [Hex | Hex]; [congruence |].
    destruct (write_one h o attribute value Ho) as (h1 & Hw & Hst1).
    assert (Hsame : ∀ x, accepts_assignment h1 x attribute = accepts_assignment h x attribute).
    { intros x. apply accepts_assignment_ext; apply Hst1. }
    destruct (IH h1 attribute value)
      as (before & o' & after & h' & -> & Hbefore & Ho' & Hst' & Hrun & Hexc).
    { eapply Exists_impl; [exact Hex |]. intros x Hx. cbn in *. by rewrite Hsame. }
    exists (o :: before), o', after, h'. split; [done |]. split.
    { constructor; [done |]. eapply Forall_impl; [exact Hbefore |].
      intros x Hx. cbn in *. by rewrite <- Hsame. }
    split; [by rewrite <- Hsame |].
    split; [by eapply stored_in_cons |].
    cbn [set_in_holders app]. rewrite Hw. by split.
  - destruct (refuse_one h o attribute value Ho) as (e & Hr & Hclass).
    exists [], o, ws, h. split; [done |]. split; [by constructor |]. split; [done |].
    split; [apply stored_in_nil |].
    cbn [set_in_holders]. rewrite Hr. cbn. by rewrite Hclass.
Qed.

(** The holders, in order: the model if it has the attribute, then its
    [hparams] if they contain it, then the datamodule if it has it. *)
Lemma all_holders_parts h model attribute :
  _lightning_get_all_attr_holders h model attribute
  = (p2 ← hparams_part h model attribute;
     p3 ← datamodule_part h model attribute;
     Ok ((if py_hasattr h model attribute then [model] else []) ++ p2 ++ p3)).
Proof.
  unfold _lightning_get_all_attr_holders, hparams_part, datamodule_part.
  set (trainer := py_getattr_default h model "trainer" VNone).
  assert (Htail : ∀ hs : list Val,
    (if is_not_None trainer then
       datamodule ← py_getattr h trainer "datamodule";
       if is_not_None datamodule && py_hasattr h datamodule attribute
       then Ok (hs ++ [datamodule]) else Ok hs
     else Ok hs)
    = (p3 ← (if is_not_None trainer then
               datamodule ← py_getattr h trainer "datamodule";
               Ok (if is_not_None datamodule && py_hasattr h datamodule attribute
                   then [datamodule] else [])
             else Ok []);
       Ok (hs ++ p3))).
  { intros hs. destruct (is_not_None trainer); [| by rewrite bind_Ok, app_nil_r].
    destruct (py_getattr h trainer "datamodule") as [dm | e]; [| done].
    rewrite !bind_Ok. destruct (_ && _); [done | by rewrite app_nil_r]. }
  destruct (py_hasattr h model "hparams").
  - destruct (py_getattr h model "hparams") as [hp | e]; [| done]. rewrite !bind_Ok.
    destruct (py_contains h hp attribute) as [c | e]; [| done].
    rewrite !bind_Ok, Htail.
    destruct (if is_not_None trainer then _ else _) as [p3 | e]; [| done].
    rewrite !bind_Ok. destruct (py_hasattr h model attribute), c; cbn [app];
      by rewrite ?app_nil_r, <- ?app_assoc.
  - rewrite !bind_Ok, Htail.
    destruct (if is_not_None trainer then _ else _) as [p3 | e]; [| done].
    rewrite !bind_Ok. by destruct (py_hasattr h model attribute).
Qed.

Lemma hparams_part_found h model attribute p2 :
  hparams_part h model attribute = Ok p2 →
  p2 = [] ∨ ∃ hp, p2 = [hp] ∧ py_contains h hp attribute = Ok true.
Proof.
  unfold hparams_part. destruct (py_hasattr h model "hparams"); [| intros [= <-]; by left].
  destruct (py_getattr h model "hparams") as [hp | e]; [| done]. rewrite bind_Ok.
  destruct (py_contains h hp attribute) as [[|] | e] eqn:Hc; [| | done]; rewrite bind_Ok;
    intros [= <-]; [right; by exists hp | by left].
Qed.

Lemma datamodule_part_found h model attribute p3 :
  datamodule_part h model attribute = Ok p3 →
  p3 = [] ∨ ∃ dm, p3 = [dm] ∧ is_not_None dm = true ∧ py_hasattr h dm attribute = true.
Proof.
  unfold datamodule_part.
  destruct (is_not_None _); [| intros [= <-]; by left].
  destruct (py_getattr h _ "datamodule") as [dm | e]; [| done]. rewrite bind_Ok.
  destruct (is_not_None dm && py_hasattr h dm attribute) eqn:Hdm; intros [= <-];
    [| by left].
  apply andb_true_iff in Hdm as [? ?]. right. by exists dm.
Qed.

Lemma all_holders_shape h model attribute holders :
  _lightning_get_all_attr_holders h model attribute = Ok holders →
  ∃ p2 p3,
    holders = (if py_hasattr h model attribute then [model] else []) ++ p2 ++ p3 ∧
    (p2 = [] ∨ ∃ hp, p2 = [hp] ∧ py_contains h hp attribute = Ok true) ∧
    (p3 = [] ∨ ∃ dm, p3 = [dm] ∧ is_not_None dm = true ∧
                     py_hasattr h dm attribute = true).
Proof.
  rewrite all_holders_parts.
  destruct (hparams_part h model attribute) as [p2 | e] eqn:H2; [| done].
  rewrite bind_Ok.
  destruct (datamodule_part h model attribute) as [p3 | e] eqn:H3; [| done].
  rewrite bind_Ok. intros [= <-]. exists p2, p3. split; [done |].
  split; [by eapply hparams_part_found | by eapply datamodule_part_found].
Qed.

(** How an object came to be a holder. *)
Lemma holder_found h model attribute holders o :
  _lightning_get_all_attr_holders h model attribute = Ok holders →
  o ∈ holders →
  (o = model ∧ py_hasattr h model attribute = true) ∨
  py_contains h o attribute = Ok true ∨
  (is_not_None o = true ∧ py_hasattr h o attribute = true).
Proof.
  intros Hall Ho.
  destruct (all_holders_shape _ _ _ _ Hall) as (p2 & p3 & -> & Hp2 & Hp3).
  apply elem_of_app in Ho as [Ho | Ho]; [| apply elem_of_app in Ho as [Ho | Ho]].
  - destruct (py_hasattr h model attribute) eqn:Hm; [| by apply elem_of_nil in Ho].
    apply list_elem_of_singleton in Ho as ->. by left.
  - destruct Hp2 as [-> | (hp & -> & Hc)]; [by apply elem_of_nil in Ho |].
    apply list_elem_of_singleton in Ho as ->. right. by left.
  - destruct Hp3 as [-> | (dm & -> & Hn & Hd)]; [by apply elem_of_nil in Ho |].
    apply list_elem_of_singleton in Ho as ->. right. by right.
Qed.

Lemma last_elem_of {A} (l : list A) (d : A) : l ≠ [] → List.last l d ∈ l.
Proof.
  induction l as [| x [| y l] IH]; [done | by left |].
  intros _. right. by apply IH.
Qed.

(** The holder that is read is [None] only when there is none, or when the
    model itself is [None] and is the only holder. *)
Lemma last_holder_None h model attribute holders :
  _lightning_get_all_attr_holders h model attribute = Ok holders →
  holders ≠ [] → List.last holders VNone = VNone →
  model = VNone ∧ holders = [VNone].
Proof.
  intros Hall Hne Hlast.
  destruct (all_holders_shape _ _ _ _ Hall) as (p2 & p3 & -> & Hp2 & Hp3).
  destruct Hp3 as [-> | (dm & -> & Hn & _)].
  2:{ rewrite !app_assoc, last_last in Hlast. by subst dm. }
  rewrite app_nil_r in *.
  destruct Hp2 as [-> | (hp & -> & Hc)].
  2:{ rewrite last_last in Hlast. by subst hp. }
  rewrite app_nil_r in *.
  destruct (py_hasattr h model attribute); [| done]. cbn in Hlast. by subst model.
Qed.

(** [lightning_hasattr] answers by the holder that is read. *)
Lemma lightning_hasattr_holders h model attribute (b : bool) :
  lightning_hasattr h model attribute = Ok b →
  ∃ holders, _lightning_get_all_attr_holders h model attribute = Ok holders ∧
             (b = true → holders ≠ [] ∧ is_not_None (List.last holders VNone) = true) ∧
             (b = false → holders = [] ∨ (model = VNone ∧ holders = [VNone])).
Proof.
  unfold lightning_hasattr, _lightning_get_first_attr_holder.
  destruct (_lightning_get_all_attr_holders h model attribute) as [holders | e] eqn:Hall;
    [| done].
  rewrite bind_Ok. intros Hb. exists holders. split; [done |].
  case_bool_decide as Hlen.
  - rewrite bind_Ok in Hb. injection Hb as <-.
    apply length_zero_iff_nil in Hlen as ->. split; [done | by left].
  - rewrite bind_Ok in Hb. injection Hb as <-.
    assert (Hne : holders ≠ []) by (intros ->; by apply Hlen).
    split; [done |]. intros Hnone. right.
    apply (last_holder_None h model attribute); [done | done |].
    by destruct (List.last holders VNone).
Qed.

(** *** What the writes of [lightning_setattr] leave observable *)
Section Stored.
Variables (h h' : gmap nat Obj) (ws : list Val) (attribute : string) (value : Val).
Hypothesis Hstored : stored_in h h' ws attribute value.
Hypothesis Haccept : ∀ o, o ∈ ws → accepts_assignment h o attribute = true.

Lemma stored_kind o : kind_of h' o = kind_of h o.
Proof. apply Hstored. Qed.

Lemma stored_class o name : class_attr h' o name = class_attr h o name.
Proof. apply Hstored. Qed.

Lemma stored_slot_other o name :
  ¬ (o ∈ ws ∧ name = attribute) → slot h' o name = slot h o name.
Proof.
  intros Hw. destruct Hstored as (_ & _ & Hs). by rewrite Hs, bool_decide_eq_false_2.
Qed.

Lemma stored_slot_written o : o ∈ ws → slot h' o attribute = Some value.
Proof.
  intros Ho. destruct Hstored as (_ & _ & Hs). by rewrite Hs, bool_decide_eq_true_2.
Qed.

Lemma stored_isinstance_dict o : isinstance_dict h' o = isinstance_dict h o.
Proof. by rewrite !isinstance_dict_view, stored_kind. Qed.

Lemma stored_getattr_other o name :
  ¬ (o ∈ ws ∧ name = attribute) → py_getattr h' o name = py_getattr h o name.
Proof.
  intros Hw. apply py_getattr_ext;
    [apply stored_kind | apply stored_class | by apply stored_slot_other].
Qed.

Lemma stored_hasattr_other o name :
  ¬ (o ∈ ws ∧ name = attribute) → py_hasattr h' o name = py_hasattr h o name.
Proof. intros Hw. unfold py_hasattr. by rewrite stored_getattr_other. Qed.

Lemma stored_contains_other o name :
  ¬ (o ∈ ws ∧ name = attribute) → py_contains h' o name = py_contains h o name.
Proof.
  intros Hw. by rewrite !py_contains_view, stored_kind, (stored_slot_other _ _ Hw).
Qed.

(** Every holder written holds the value. *)
Lemma stored_holds o : o ∈ ws → holds h' o attribute value.
Proof.
  intros Ho. pose proof (Haccept o Ho) as Hacc.
  destruct (accepts_assignment_heap _ _ _ Hacc) as [Hk [l ->]].
  unfold holds, read_holder.
  rewrite isinstance_dict_view, py_getitem_view, py_getattr_view, stored_kind, stored_class.
  rewrite (stored_slot_written _ Ho).
  unfold accepts_assignment in Hacc.
  destruct (kind_of h (VRef l)) as [[| |] |]; try done;
    by destruct (class_attr h (VRef l) attribute) as [[? | ?] |].
Qed.

(** The tests by which holders are found can only turn from [False] to
    [True], and only on an object that has been written. *)
Lemma stored_hasattr_kept o :
  py_hasattr h o attribute = true → py_hasattr h' o attribute = true.
Proof.
  destruct (decide (o ∈ ws)) as [Ho | Ho].
  - intros Hbefore. revert Hbefore. unfold py_hasattr.
    pose proof (Haccept o Ho) as Hacc.
    destruct (accepts_assignment_heap _ _ _ Hacc) as [Hk [l ->]].
    rewrite !py_getattr_view, stored_kind, stored_class, (stored_slot_written _ Ho).
    unfold accepts_assignment in Hacc.
    destruct (kind_of h (VRef l)) as [[| |] |]; try done;
      by destruct (class_attr h (VRef l) attribute) as [[? | ?] |].
  - rewrite stored_hasattr_other; [done | by intros [? _]].
Qed.

Lemma stored_hasattr_new o :
  py_hasattr h' o attribute = true → py_hasattr h o attribute = true ∨ o ∈ ws.
Proof.
  destruct (decide (o ∈ ws)) as [Ho | Ho]; [by right |].
  rewrite stored_hasattr_other; [by left | by intros [? _]].
Qed.

Lemma stored_contains_kept o (c : bool) :
  py_contains h o attribute = Ok c →
  ∃ c' : bool, py_contains h' o attribute = Ok c' ∧
               (c = true → c' = true) ∧ (c' = true → c = true ∨ o ∈ ws).
Proof.
  destruct (decide (o ∈ ws)) as [Ho | Ho].
  - pose proof (Haccept o Ho) as Hacc.
    destruct (accepts_assignment_heap _ _ _ Hacc) as [Hk [l ->]].
    rewrite !py_contains_view, stored_kind, (stored_slot_written _ Ho).
    destruct (kind_of h (VRef l)) as [[| |] |]; try done; intros _;
      (exists true; split; [by rewrite bool_decide_eq_true_2 | by split; [| right]]).
  - rewrite stored_contains_other by (by intros [? _]).
    intros Hc. exists c. split; [done |]. split; [done | by left].
Qed.

(** With the three links kept, the holders found after the writes are
    among those written, and there is one if there was one. *)
Lemma stored_holders model :
  links_kept h model attribute ws →
  _lightning_get_all_attr_holders h model attribute = Ok ws →
  ∃ holders',
    _lightning_get_all_attr_holders h' model attribute = Ok holders' ∧
    (ws ≠ [] → holders' ≠ []) ∧
    ∀ o, o ∈ holders' → o ∈ ws.
Proof.
  intros (Htr & Hhp & Hdm). rewrite !all_holders_parts.
  unfold hparams_part, datamodule_part, py_getattr_default.
  rewrite (stored_getattr_other model "trainer") by (intros [? <-]; by apply Htr).
  rewrite (stored_getattr_other model "hparams") by (intros [? <-]; by apply Hhp).
  rewrite (stored_hasattr_other model "hparams") by (intros [? <-]; by apply Hhp).
  unfold py_getattr_default in Hdm.
  set (trainer := match py_getattr h model "trainer" with Ok v => v | Raise _ => VNone end)
    in *.
  rewrite (stored_getattr_other trainer "datamodule") by (intros [? <-]; by apply Hdm).
  set (p1 := if py_hasattr h model attribute then [model] else []).
  set (p1' := if py_hasattr h' model attribute then [model] else []).
  assert (H1 : (p1 ≠ [] → p1' = p1) ∧ ∀ o, o ∈ p1' → o ∈ p1 ∨ o ∈ ws).
  { unfold p1, p1'. destruct (py_hasattr h model attribute) eqn:Hm.
    - rewrite (stored_hasattr_kept _ Hm). split; [done | by left].
    - split; [done |]. intros o. destruct (py_hasattr h' model attribute) eqn:Hm';
        [| by left]. intros ->%list_elem_of_singleton.
      destruct (stored_hasattr_new _ Hm'); [congruence | by right]. }
  clearbody p1 p1'.
  assert (Hgrown : ∀ p1 p2 p3 p1' p2' p3' : list Val,
    ((p1 ≠ [] → p1' = p1) ∧ ∀ o, o ∈ p1' → o ∈ p1 ∨ o ∈ ws) →
    ((p2 ≠ [] → p2' = p2) ∧ ∀ o, o ∈ p2' → o ∈ p2 ∨ o ∈ ws) →
    ((p3 ≠ [] → p3' = p3) ∧ ∀ o, o ∈ p3' → o ∈ p3 ∨ o ∈ ws) →
    p1 ++ p2 ++ p3 = ws →
    (ws ≠ [] → p1' ++ p2' ++ p3' ≠ []) ∧ ∀ o, o ∈ p1' ++ p2' ++ p3' → o ∈ ws).
  { intros q1 q2 q3 q1' q2' q3' [Ha1 Hb1] [Ha2 Hb2] [Ha3 Hb3] <-. split.
    - intros Hne Hnil. apply app_eq_nil in Hnil as [-> Hnil].
      apply app_eq_nil in Hnil as [-> ->].
      destruct q1 as [| x q1]; [| by discriminate Ha1].
      destruct q2 as [| x q2]; [| by discriminate Ha2].
      destruct q3 as [| x q3]; [| by discriminate Ha3]. done.
    - intros o. rewrite !elem_of_app. intros [Ho | [Ho | Ho]].
      + destruct (Hb1 o Ho); [by left | by rewrite <- !elem_of_app].
      + destruct (Hb2 o Ho); [by right; left | by rewrite <- !elem_of_app].
      + destruct (Hb3 o Ho); [by right; right | by rewrite <- !elem_of_app]. }
  assert (H3 : ∀ p3,
    (if is_not_None trainer then
       datamodule ← py_getattr h trainer "datamodule";
       Ok (if is_not_None datamodule && py_hasattr h datamodule attribute
           then [datamodule] else [])
     else Ok []) = Ok p3 →
    ∃ p3',
      (if is_not_None trainer then
         datamodule ← py_getattr h trainer "datamodule";
         Ok (if is_not_None datamodule && py_hasattr h' datamodule attribute
             then [datamodule] else [])
       else Ok []) = Ok p3' ∧
      (p3 ≠ [] → p3' = p3) ∧ ∀ o, o ∈ p3' → o ∈ p3 ∨ o ∈ ws).
  { intros p3. destruct (is_not_None trainer).
    2:{ intros [= <-]. exists []. split; [done |]. split; [done | by left]. }
    destruct (py_getattr h trainer "datamodule") as [dm | e]; [| done].
    rewrite !bind_Ok. destruct (is_not_None dm); cbn [andb].
    2:{ intros [= <-]. exists []. split; [done |]. split; [done | by left]. }
    destruct (py_hasattr h dm attribute) eqn:Hd; intros [= <-].
    - rewrite (stored_hasattr_kept _ Hd). eexists. split; [done |].
      split; [done | by left].
    - destruct (py_hasattr h' dm attribute) eqn:Hd'.
      + exists [dm]. split; [done |]. split; [done |].
        intros o ->%list_elem_of_singleton.
        destruct (stored_hasattr_new _ Hd'); [congruence | by right].
      + exists []. split; [done |]. split; [done | by left]. }
  destruct (py_hasattr h model "hparams").
  - destruct (py_getattr h model "hparams") as [hp | e]; [| done]. rewrite !bind_Ok.
    destruct (py_contains h hp attribute) as [c | e] eqn:Hc; [| done].
    destruct (stored_contains_kept hp c Hc) as (c' & -> & Hcc' & Hc'c).
    rewrite !bind_Ok.
    destruct (if is_not_None trainer then _ else _) as [p3 | e] eqn:Hp3; [| done].
    destruct (H3 p3 eq_refl) as (p3' & -> & Hg3). rewrite !bind_Ok.
    intros [= Hws]. eexists. split; [done |].
    apply (Hgrown p1 (if c then [hp] else []) p3); [done | | done | done].
    destruct c.
    + rewrite Hcc' by done. split; [done | by left].
    + split; [done |]. destruct c'; [| by left].
      intros o ->%list_elem_of_singleton. destruct Hc'c; [done | done | by right].
  - rewrite !bind_Ok.
    destruct (if is_not_None trainer then _ else _) as [p3 | e] eqn:Hp3; [| done].
    destruct (H3 p3 eq_refl) as (p3' & -> & Hg3). rewrite !bind_Ok.
    intros [= Hws]. eexists. split; [done |].
    apply (Hgrown p1 [] p3); [done | | done | done]. split; [done | by left].
Qed.

End Stored.


(** The same happens with the other two links.  Writing ['hparams'] replaces
    the dictionary in which the attribute is then looked up; writing
    ['datamodule'] into a trainer that is itself a holder replaces the
    datamodule in which it is then looked up. *)
Example lightning_getattr_after_setattr_hparams :
  let h : gmap nat Obj :=
    {[ 0%nat := MkObj InstanceObj ∅ {[ "hparams" := VRef 1 ]};
       1%nat := MkObj DictObj ∅ ∅;
       2%nat := MkObj DictObj ∅ {[ "hparams" := VInt 1 ]} ]} in
  parsing.lightning_hasattr builtin_attr_sample h (VRef 0) "hparams" = Ok true ∧
  parsing.lightning_getattr builtin_attr_sample
    (parsing.lightning_setattr builtin_attr_sample h (VRef 0) "hparams" (VRef 2)).1
    (VRef 0) "hparams"
    = Ok (VInt 1).
Proof. cbn zeta. split; vm_compute; reflexivity. Qed.

Example lightning_getattr_after_setattr_datamodule :
  let h : gmap nat Obj :=
    {[ 0%nat := MkObj InstanceObj ∅ {[ "trainer" := VRef 0; "datamodule" := VNone ]};
       1%nat := MkObj InstanceObj ∅ {[ "datamodule" := VInt 9 ]} ]} in
  parsing.lightning_hasattr builtin_attr_sample h (VRef 0) "datamodule" = Ok true ∧
  parsing.lightning_getattr builtin_attr_sample
    (parsing.lightning_setattr builtin_attr_sample h (VRef 0) "datamodule" (VRef 1)).1
    (VRef 0) "datamodule"
    = Ok (VInt 9).
Proof. cbn zeta. split; vm_compute; reflexivity. Qed.

(** When the [hparams] are a string, [in] is a substring test: the string
    becomes a holder on which no attribute can be set. *)
Example lightning_setattr_string_hparams :
  let h : gmap nat Obj :=
    {[ 0%nat := MkObj InstanceObj ∅ {[ "hparams" := VStr "lr=0.1" ]} ]} in
  parsing.lightning_hasattr builtin_attr_sample h (VRef 0) "lr" = Ok true ∧
  raised_class (parsing.lightning_setattr builtin_attr_sample h (VRef 0) "lr" (VInt 7)).2
    = Some AttributeError.
Proof. cbn zeta. split; vm_compute; reflexivity. Qed.

(** A property without a setter is found by [hasattr] and refuses the
    assignment: [lightning_hasattr] is [True] and [lightning_setattr]
    raises. *)
Example lightning_setattr_read_only_property :
  let h : gmap nat Obj :=
    {[ 0%nat := MkObj InstanceObj {[ "current_epoch" := ReadOnlyProperty (VInt 3) ]} ∅ ]} in
  parsing.lightning_hasattr builtin_attr_sample h (VRef 0) "current_epoch" = Ok true ∧
  parsing.lightning_setattr builtin_attr_sample h (VRef 0) "current_epoch" (VInt 5)
  = (h, raise AttributeError "can't set attribute").
Proof. cbn zeta. split; vm_compute; reflexivity. Qed.

(** The holders are written in turn: when the datamodule refuses, the model
    has already been changed. *)
Example lightning_setattr_partial_write :
  let h : gmap nat Obj :=
    {[ 0%nat := MkObj InstanceObj ∅ {[ "lr" := VInt 1; "trainer" := VRef 1 ]};
       1%nat := MkObj InstanceObj ∅ {[ "datamodule" := VRef 2 ]};
       2%nat := MkObj InstanceObj {[ "lr" := ReadOnlyProperty (VInt 1) ]} ∅ ]} in
  raised_class (parsing.lightning_setattr builtin_attr_sample h (VRef 0) "lr" (VInt 7)).2
    = Some AttributeError ∧
  parsing.py_getattr builtin_attr_sample
    (parsing.lightning_setattr builtin_attr_sample h (VRef 0) "lr" (VInt 7)).1
    (VRef 0) "lr" = Ok (VInt 7).
Proof. cbn zeta. split; vm_compute; reflexivity. Qed.

(** A class attribute is found by [hasattr]; the assignment makes an
    instance attribute of it, which is read from then on. *)
Example lightning_setattr_class_attribute :
  let h : gmap nat Obj :=
    {[ 0%nat := MkObj InstanceObj {[ "batch_size" := ClassValue (VInt 32) ]} ∅ ]} in
  parsing.lightning_getattr builtin_attr_sample h (VRef 0) "batch_size" = Ok (VInt 32) ∧
  parsing.lightning_setattr builtin_attr_sample h (VRef 0) "batch_size" (VInt 64)
  = ({[ 0%nat := MkObj InstanceObj {[ "batch_size" := ClassValue (VInt 32) ]}
                   {[ "batch_size" := VInt 64 ]} ]}, Ok ()).
Proof. cbn zeta. split; vm_compute; reflexivity. Qed.


End LightningAttrSpec.


(* ===================================================================== *)
(** * Part III.  Further properties of the same modules                   *)
(* ===================================================================== *)

(** ** [str_to_bool_or_str], [str_to_bool_or_int] *)
Section StrToBoolOrIntSpec.
Import parsing.
Variable str_lower : string → string.
Variable py_int : string → Result Z.

(** The doctests of [str_to_bool_or_int]. *)
Example str_to_bool_or_int_doctests :
  str_to_bool_or_int ascii_lower int_decimal "FALSE" = Ok (AsBool false) ∧
  str_to_bool_or_int ascii_lower int_decimal "1" = Ok (AsBool true) ∧
  str_to_bool_or_int ascii_lower int_decimal "2" = Ok (AsInt 2) ∧
  str_to_bool_or_int ascii_lower int_decimal "abc" = Ok (AsStr "abc").
Proof. repeat split; reflexivity. Qed.

Lemma str_to_bool_or_str_cases (val : string) :
  str_to_bool_or_str str_lower val =
    if str_in (str_lower val) true_values then IsBool true
    else if str_in (str_lower val) false_values then IsBool false
    else IsStr val.
Proof. reflexivity. Qed.

(** X1.  When [int(val)] can only fail with a [ValueError],
    [str_to_bool_or_int(val)] never raises; a string it returns is the
    input itself, unchanged, and it is returned only when [val] is neither a
    truth value nor accepted by [int]; an integer it returns is [int(val)]
    for a [val] that is not a truth value. *)
Theorem str_to_bool_or_int_returns (val : string) :
  (∀ e, py_int val = Raise e → exc_matches e [ValueError] = true) →
  (∃ r, str_to_bool_or_int str_lower py_int val = Ok r) ∧
  (∀ s, str_to_bool_or_int str_lower py_int val = Ok (AsStr s) →
     s = val ∧ str_to_bool_or_str str_lower val = IsStr val ∧
     ∃ e, py_int val = Raise e) ∧
  (∀ z, str_to_bool_or_int str_lower py_int val = Ok (AsInt z) →
     py_int val = Ok z ∧ str_to_bool_or_str str_lower val = IsStr val).
Proof.
  intros Hint. unfold str_to_bool_or_int. rewrite str_to_bool_or_str_cases.
  destruct (str_in (str_lower val) true_values).
  { split; [by eexists |]. by split. }
  destruct (str_in (str_lower val) false_values).
  { split; [by eexists |]. by split. }
  destruct (py_int val) as [z | e] eqn:Hz.
  - split; [by eexists |]. split; [done |]. by intros z' [= <-].
  - rewrite (Hint e eq_refl). split; [by eexists |].
    split; [| done]. intros s [= <-]. split; [done |]. split; [done |]. by exists e.
Qed.

(** X2.  The truth values win over the integers: [str_to_bool(val)] returns
    [b] exactly when [str_to_bool_or_str(val)] is the boolean [b], and
    exactly when [str_to_bool_or_int(val)] is the boolean [b], whatever
    [int(val)] would be (so ['1'] and ['0'] give [True] and [False]); and
    when [str_to_bool(val)] raises, [str_to_bool_or_str(val)] is [val]. *)
Theorem truth_values_take_precedence (val : string) (b : bool) :
  (str_to_bool str_lower val = Ok b ↔ str_to_bool_or_str str_lower val = IsBool b) ∧
  (str_to_bool str_lower val = Ok b
     ↔ str_to_bool_or_int str_lower py_int val = Ok (AsBool b)) ∧
  (returned (str_to_bool str_lower val) = None
     ↔ str_to_bool_or_str str_lower val = IsStr val).
Proof.
  unfold str_to_bool, str_to_bool_or_int. rewrite str_to_bool_or_str_cases.
  destruct (str_in (str_lower val) true_values).
  { repeat split; intros H; by inversion H. }
  destruct (str_in (str_lower val) false_values).
  { repeat split; intros H; by inversion H. }
  repeat split; try done.
  destruct (py_int val) as [z | e]; [done |]. by destruct (exc_matches _ _).
Qed.

End StrToBoolOrIntSpec.

Lemma str_to_bool_or_int_returns_witness :
  ∃ r, parsing.str_to_bool_or_int parsing.ascii_lower parsing.int_decimal "12a" = Ok r.
Proof.
  apply (str_to_bool_or_int_returns parsing.ascii_lower parsing.int_decimal "12a").
  intros e He. vm_compute in He. injection He as <-. reflexivity.
Defined.

(** ** [is_picklable], [clean_namespace] *)
Section CleanNamespaceMore.
Import parsing.
Variable pickle_dumps : PyVal → Result string.

(** X3.  [is_picklable] returns [True] exactly when [pickle.dumps]
    succeeds, [False] exactly when it raises a [PickleError] or an
    [AttributeError] (or an exception of a subclass); an exception that
    leaves [is_picklable] is the one [pickle.dumps] raised and is of neither
    class. *)
Theorem is_picklable_answers (obj : PyVal) :
  (is_picklable pickle_dumps obj = Ok true ↔ ∃ bytes, pickle_dumps obj = Ok bytes) ∧
  (is_picklable pickle_dumps obj = Ok false
     ↔ ∃ e, pickle_dumps obj = Raise e ∧
            (issubclass (exc_class e) PickleError = true ∨
             issubclass (exc_class e) AttributeError = true)) ∧
  (∀ e, is_picklable pickle_dumps obj = Raise e →
     pickle_dumps obj = Raise e ∧
     issubclass (exc_class e) PickleError = false ∧
     issubclass (exc_class e) AttributeError = false).
Proof.
  rewrite is_picklable_cases. destruct (pickle_dumps obj) as [bytes | e].
  - split; [split; [by eexists | done] |]. split; [| done].
    split; [done | by intros (e & He & _)].
  - destruct (issubclass (exc_class e) PickleError) eqn:Hp;
      [| destruct (issubclass (exc_class e) AttributeError) eqn:Ha]; cbn [orb].
    + split; [split; [done | by intros [? ?]] |]. split; [| done].
      split; [intros _ | done]. exists e. split; [done | by left].
    + split; [split; [done | by intros [? ?]] |]. split; [| done].
      split; [intros _ | done]. exists e. split; [done | by right].
    + split; [split; [done | by intros [? ?]] |]. split.
      * split; [done |]. intros (e' & [= <-] & [H | H]); congruence.
      * by intros e' [= <-].
Qed.

Lemma del_attrs_of_Ok_decided (items : list (string * PyVal)) (ks : list string) :
  del_attrs_of pickle_dumps items = Ok ks →
  Forall (λ kv, ∃ b, is_picklable pickle_dumps kv.2 = Ok b) items.
Proof.
  revert ks. induction items as [| [k v] items IH]; intros ks; [by constructor |].
  cbn [del_attrs_of]. destruct (is_picklable pickle_dumps v) as [b | e] eqn:Hb; [| done].
  rewrite bind_Ok. destruct (del_attrs_of pickle_dumps items) as [ks' | e]; [| done].
  intros _. constructor; [by exists b | by eapply IH].
Qed.

Lemma del_attrs_of_Raise_origin (items : list (string * PyVal)) (e : Exn) :
  del_attrs_of pickle_dumps items = Raise e →
  ∃ k v, (k, v) ∈ items ∧ is_picklable pickle_dumps v = Raise e.
Proof.
  induction items as [| [k v] items IH]; [done |].
  cbn [del_attrs_of]. destruct (is_picklable pickle_dumps v) as [b | e'] eqn:Hb.
  - rewrite bind_Ok. destruct (del_attrs_of pickle_dumps items) as [ks' | e'']; [done |].
    intros [= ->]. destruct (IH eq_refl) as (k' & v' & Hin & Hr).
    exists k', v'. split; [by right | done].
  - intros [= ->]. exists k, v. split; [by left | done].
Qed.

(** The whole run when [is_picklable] answers for every value. *)
Lemma clean_namespace_run (hparams : HParams) :
  (∀ k v, hparams_dict_of hparams !! k = Some v →
          ∃ b, is_picklable pickle_dumps v = Ok b) →
  ∃ ks,
    NoDup ks ∧
    (∀ k, k ∈ ks ↔ ∃ v, hparams_dict_of hparams !! k = Some v ∧
                        unpicklable pickle_dumps v) ∧
    clean_namespace pickle_dumps hparams
    = MkCleaned (hparams_with_dict hparams
                   (foldl (λ d k, delete k d) (hparams_dict_of hparams) ks))
                (removed_warning <$> ks) (Ok ()).
Proof.
  intros Hdec. unfold clean_namespace.
  set (d := hparams_dict_of hparams) in *.
  rewrite del_attrs_of_decided.
  2:{ apply Forall_forall. intros [k v] Hkv. apply elem_of_map_to_list in Hkv. eauto. }
  set (ks := (filter _ (map_to_list d)).*1). exists ks.
  assert (Hks : ∀ k, k ∈ ks ↔ ∃ v, d !! k = Some v ∧ unpicklable pickle_dumps v).
  { intros k. unfold ks. rewrite list_elem_of_fmap. split.
    - intros ([k' v] & -> & Hin). apply list_elem_of_filter in Hin as [Hu Hin].
      apply elem_of_map_to_list in Hin. eauto.
    - intros (v & Hv & Hu). exists (k, v). split; [done |].
      apply list_elem_of_filter. split; [done |]. by apply elem_of_map_to_list. }
  assert (Hnd : NoDup ks).
  { unfold ks. apply (NoDup_fmap_fst (filter _ (map_to_list d))).
    - intros k v1 v2 H1 H2.
      apply list_elem_of_filter in H1 as [_ H1]. apply list_elem_of_filter in H2 as [_ H2].
      apply elem_of_map_to_list in H1, H2. congruence.
    - apply NoDup_filter, NoDup_map_to_list. }
  split; [done |]. split; [done |].
  rewrite del_loop_deletes; [done | done |].
  intros k Hk. apply Hks in Hk as (v & Hv & _). by exists v.
Qed.

Lemma del_loop_only_deletes (ks : list string) :
  ∀ (d : gmap string PyVal) (w : list string), (del_loop ks d w).1.1 ⊆ d.
Proof.
  induction ks as [| k ks IH]; intros d w; cbn [del_loop]; [done |].
  unfold dict_delitem. destruct (d !! k); [| done].
  etrans; [apply IH | apply delete_subseteq].
Qed.

Lemma clean_namespace_outcome (hparams : HParams) :
  cleaned_outcome (clean_namespace pickle_dumps hparams) = Ok () ∨
  ∃ k v e, hparams_dict_of hparams !! k = Some v ∧
           is_picklable pickle_dumps v = Raise e ∧
           cleaned_outcome (clean_namespace pickle_dumps hparams) = Raise e.
Proof.
  destruct (del_attrs_of pickle_dumps (map_to_list (hparams_dict_of hparams)))
    as [ks | e] eqn:Hks.
  - apply del_attrs_of_Ok_decided in Hks.
    destruct (clean_namespace_run hparams) as (ks' & _ & _ & ->); [| by left].
    intros k v Hkv. apply elem_of_map_to_list in Hkv.
    by apply (proj1 (Forall_forall _ _) Hks (k, v)).
  - unfold clean_namespace. rewrite Hks. cbn. right.
    apply del_attrs_of_Raise_origin in Hks as (k & v & Hin & Hr).
    exists k, v, e. by apply elem_of_map_to_list in Hin.
Qed.

(** X4.  Whatever [pickle.dumps] does, [clean_namespace] only deletes:
    every entry of the dictionary it leaves was in the dictionary it was
    given, with the same value, and a dictionary stays a dictionary, a
    namespace a namespace.  It never fails in its own deletions: it returns,
    or it ends with an exception that [is_picklable] raised on one of the
    values. *)
Theorem clean_namespace_only_deletes (hparams : HParams) :
  let c := clean_namespace pickle_dumps hparams in
  (∀ k v, hparams_dict_of (cleaned_hparams c) !! k = Some v →
          hparams_dict_of hparams !! k = Some v) ∧
  cleaned_hparams c = hparams_with_dict hparams (hparams_dict_of (cleaned_hparams c)) ∧
  (cleaned_outcome c = Ok () ∨
   ∃ k v e, hparams_dict_of hparams !! k = Some v ∧
            is_picklable pickle_dumps v = Raise e ∧ cleaned_outcome c = Raise e).
Proof.
  cbn zeta. split; [| split; [| apply clean_namespace_outcome]].
  - intros k v. unfold clean_namespace.
    destruct (del_attrs_of pickle_dumps (map_to_list (hparams_dict_of hparams)))
      as [ks | e]; [| done].
    pose proof (del_loop_only_deletes ks (hparams_dict_of hparams) []) as Hsub.
    destruct (del_loop ks (hparams_dict_of hparams) []) as [[d w] r].
    cbn in *. replace (hparams_dict_of (hparams_with_dict hparams d)) with d
      by (by destruct hparams).
    intros Hd. by eapply lookup_weaken.
  - unfold clean_namespace.
    destruct (del_attrs_of pickle_dumps (map_to_list (hparams_dict_of hparams)))
      as [ks | e]; [| by destruct hparams].
    destruct (del_loop ks (hparams_dict_of hparams) []) as [[d w] r].
    by destruct hparams.
Qed.

(** X5.  When [is_picklable] answers for every value of the dictionary,
    [clean_namespace] returns normally, and afterwards a key is present
    exactly when it was present with a value on which [is_picklable]
    answered [True]; that value is unchanged. *)
Theorem clean_namespace_removes_unpicklable (hparams : HParams) :
  (∀ k v, hparams_dict_of hparams !! k = Some v →
          ∃ b, is_picklable pickle_dumps v = Ok b) →
  let c := clean_namespace pickle_dumps hparams in
  cleaned_outcome c = Ok () ∧
  (∀ k v, hparams_dict_of (cleaned_hparams c) !! k = Some v
          ↔ (hparams_dict_of hparams !! k = Some v ∧
             is_picklable pickle_dumps v = Ok true)).
Proof.
  intros Hdec. destruct (clean_namespace_decided pickle_dumps hparams Hdec)
    as (Hout & _ & Hlook).
  cbn zeta. split; [done |]. intros k v. rewrite Hlook.
  destruct (hparams_dict_of hparams !! k) as [v' |] eqn:Hk; cbn.
  - destruct (Hdec k v' Hk) as [b Hb]. unfold unpicklable. rewrite Hb.
    destruct b; split; try done.
    + intros [= <-]. by split.
    + by intros [[= <-] _].
    + intros [[= <-] Ht]. congruence.
  - split; [done | by intros [? _]].
Qed.

(** X6.  When [is_picklable] raises on the value of some entry,
    [clean_namespace] ends with an exception, has deleted nothing and has
    issued no warning, even if other entries are unpicklable. *)
Theorem clean_namespace_all_or_nothing (hparams : HParams) (k : string) (v : PyVal)
    (e : Exn) :
  hparams_dict_of hparams !! k = Some v →
  is_picklable pickle_dumps v = Raise e →
  let c := clean_namespace pickle_dumps hparams in
  cleaned_hparams c = hparams ∧ cleaned_warnings c = [] ∧
  ∃ e' k' v', cleaned_outcome c = Raise e' ∧
              hparams_dict_of hparams !! k' = Some v' ∧
              is_picklable pickle_dumps v' = Raise e'.
Proof.
  intros Hk He.
  destruct (clean_namespace_escapes pickle_dumps hparams k v e Hk He)
    as (Hsame & Hwarn & e' & Hout).
  cbn zeta. split; [done |]. split; [done |].
  destruct (clean_namespace_outcome hparams) as [Hok | Hraise].
  - congruence.
  - destruct Hraise as (k' & v' & e'' & Hk' & He'' & Hout'').
    exists e'', k', v'. by repeat split.
Qed.

Lemma size_foldl_delete (ks : list string) :
  ∀ d : gmap string PyVal,
    NoDup ks → (∀ k, k ∈ ks → is_Some (d !! k)) →
    (size (foldl (λ d k, delete k d) d ks) + length ks = size d)%nat.
Proof.
  induction ks as [| k ks IH]; intros d Hnd Hin; cbn [foldl length]; [lia |].
  apply NoDup_cons in Hnd as [Hk Hnd].
  destruct (Hin k) as [v Hv]; [by left |].
  rewrite Nat.add_succ_r, IH; [| done |].
  - rewrite map_size_delete_Some by (by exists v).
    assert (size d ≠ 0%nat); [| lia].
    apply map_size_non_empty_iff. intros ->. by rewrite lookup_empty in Hv.
  - intros k' Hk'. rewrite lookup_delete_ne; [| by intros ->].
    apply Hin. by right.
Qed.

(** X7.  When [is_picklable] answers for every value, [clean_namespace]
    sends one warning for each entry it removes and no other: the warnings
    are those of a duplicate-free list of exactly the removed keys, and
    their number is the number of entries the dictionary has lost. *)
Theorem clean_namespace_warns_per_removed (hparams : HParams) :
  (∀ k v, hparams_dict_of hparams !! k = Some v →
          ∃ b, is_picklable pickle_dumps v = Ok b) →
  let c := clean_namespace pickle_dumps hparams in
  (∃ ks, cleaned_warnings c = removed_warning <$> ks ∧ NoDup ks ∧
         ∀ k, k ∈ ks ↔ (is_Some (hparams_dict_of hparams !! k) ∧
                        hparams_dict_of (cleaned_hparams c) !! k = None)) ∧
  (length (cleaned_warnings c) + size (hparams_dict_of (cleaned_hparams c))
   = size (hparams_dict_of hparams))%nat.
Proof.
  intros Hdec. destruct (clean_namespace_run hparams Hdec) as (ks & Hnd & Hks & Hrun).
  cbn zeta. rewrite Hrun. cbn [cleaned_warnings cleaned_hparams].
  replace (hparams_dict_of (hparams_with_dict hparams _))
    with (foldl (λ d k, delete k d) (hparams_dict_of hparams) ks)
    by (by destruct hparams).
  assert (Hpres : ∀ k, k ∈ ks → is_Some (hparams_dict_of hparams !! k)).
  { intros k Hk. apply Hks in Hk as (v & Hv & _). by exists v. }
  split.
  - exists ks. split; [done |]. split; [done |]. intros k.
    rewrite lookup_foldl_delete. split.
    + intros Hk. split; [by apply Hpres |]. by rewrite decide_True.
    + intros [[v Hv] Hnone]. destruct (decide (k ∈ ks)); [done |]. congruence.
  - rewrite length_fmap, Nat.add_comm. by apply size_foldl_delete.
Qed.

(** X8.  [clean_namespace] is idempotent: when [is_picklable] answers for
    every value, a second call on the cleaned object returns normally,
    removes nothing and sends no warning. *)
Theorem clean_namespace_idempotent (hparams : HParams) :
  (∀ k v, hparams_dict_of hparams !! k = Some v →
          ∃ b, is_picklable pickle_dumps v = Ok b) →
  let once := cleaned_hparams (clean_namespace pickle_dumps hparams) in
  clean_namespace pickle_dumps once = MkCleaned once [] (Ok ()).
Proof.
  intros Hdec. cbn zeta.
  destruct (clean_namespace_decided pickle_dumps hparams Hdec) as (_ & _ & Hlook).
  cbn zeta in Hlook.
  set (once := cleaned_hparams (clean_namespace pickle_dumps hparams)) in *.
  assert (Hpick : ∀ k v, hparams_dict_of once !! k = Some v →
                         is_picklable pickle_dumps v = Ok true).
  { intros k v. rewrite Hlook.
    destruct (hparams_dict_of hparams !! k) as [v' |] eqn:Hk; [| done]. cbn.
    destruct (Hdec k v' Hk) as [b Hb]. unfold unpicklable. rewrite Hb.
    destruct b; [by intros [= <-] | done]. }
  destruct (clean_namespace_run once) as (ks & _ & Hks & ->).
  { intros k v Hkv. exists true. by eapply Hpick. }
  assert (ks = []) as ->.
  { destruct ks as [| k ks]; [done |].
    destruct (proj1 (Hks k)) as (v & Hv & Hu); [by left |].
    unfold unpicklable in Hu. by rewrite (Hpick k v Hv) in Hu. }
  cbn. f_equal. by destruct once.
Qed.

End CleanNamespaceMore.

Lemma sample_hparams_decided (k : string) (v : PyVal) :
  sample_hparams !! k = Some v →
  ∃ b, parsing.is_picklable parsing.pickle_dumps_sample v = Ok b.
Proof.
  unfold sample_hparams. intros Hkv.
  destruct (decide (k = "lr")) as [-> | ?]; [injection Hkv as <-; by eexists |].
  destruct (decide (k = "f")) as [-> | ?]; [injection Hkv as <-; by eexists |].
  destruct (decide (k = "g")) as [-> | ?]; [injection Hkv as <-; by eexists |].
  by rewrite !lookup_insert_ne, lookup_singleton_ne in Hkv.
Qed.

Lemma clean_namespace_removes_unpicklable_witness :
  parsing.cleaned_outcome
    (parsing.clean_namespace parsing.pickle_dumps_sample (parsing.HDict sample_hparams))
  = Ok ().
Proof.
  apply (clean_namespace_removes_unpicklable parsing.pickle_dumps_sample
           (parsing.HDict sample_hparams)).
  exact sample_hparams_decided.
Defined.

Lemma clean_namespace_all_or_nothing_witness :
  parsing.cleaned_warnings
    (parsing.clean_namespace parsing.pickle_dumps_sample
       (parsing.HNamespace {[ "f" := PyObject "lambda"; "lock" := PyObject "lock" ]}))
  = [].
Proof.
  apply (clean_namespace_all_or_nothing parsing.pickle_dumps_sample
           (parsing.HNamespace {[ "f" := PyObject "lambda"; "lock" := PyObject "lock" ]})
           "lock" (PyObject "lock")
           (MkExn TypeError "cannot pickle '_thread.lock' object" None));
    reflexivity.
Defined.

Lemma clean_namespace_warns_per_removed_witness :
  (length (parsing.cleaned_warnings
             (parsing.clean_namespace parsing.pickle_dumps_sample
                (parsing.HDict sample_hparams)))
   + size (parsing.hparams_dict_of
             (parsing.cleaned_hparams
                (parsing.clean_namespace parsing.pickle_dumps_sample
                   (parsing.HDict sample_hparams))))
   = size sample_hparams)%nat.
Proof.
  destruct (clean_namespace_warns_per_removed parsing.pickle_dumps_sample
              (parsing.HDict sample_hparams) sample_hparams_decided) as [_ Hcount].
  exact Hcount.
Defined.

Lemma clean_namespace_idempotent_witness :
  let once :=
    parsing.cleaned_hparams
      (parsing.clean_namespace parsing.pickle_dumps_sample
         (parsing.HDict sample_hparams)) in
  parsing.clean_namespace parsing.pickle_dumps_sample once
  = parsing.MkCleaned once [] (Ok ()).
Proof.
  apply (clean_namespace_idempotent parsing.pickle_dumps_sample
           (parsing.HDict sample_hparams)).
  exact sample_hparams_decided.
Defined.

(** ** [parse_class_init_keys], [get_init_args], [collect_init_args] *)
Section InitArgsMore.
Import parsing.

(** X9.  [parse_class_init_keys] raises exactly on a signature without
    parameters, and then an [IndexError]; the names it returns otherwise are
    names of parameters of the signature. *)
Theorem parse_class_init_keys_raises_iff_empty (cls : PyClass) :
  (raised_class (parse_class_init_keys cls) = Some IndexError
     ↔ init_signature cls = []) ∧
  (returned (parse_class_init_keys cls) = None ↔ init_signature cls = []) ∧
  (∀ n_self n_args n_kwargs,
     parse_class_init_keys cls = Ok (n_self, n_args, n_kwargs) →
     n_self ∈ name <$> init_signature cls ∧
     (∀ n, n_args = Some n → n ∈ name <$> init_signature cls) ∧
     (∀ n, n_kwargs = Some n → n ∈ name <$> init_signature cls)).
Proof.
  unfold parse_class_init_keys.
  destruct (init_signature cls) as [| p0 rest] eqn:Hsig.
  - by repeat split.
  - split; [by split |]. split; [by split |].
    intros n_self n_args n_kwargs [= <- <- <-].
    split; [by left |].
    split; intros n Hn; by apply (_get_first_if_any_name (p0 :: rest)) in Hn.
Qed.

Lemma collect_locals_missing (local_vars : gmap string PyVal) (keys : list string) :
  ∀ acc, (∃ k, k ∈ keys ∧ local_vars !! k = None) →
  ∃ k, k ∈ keys ∧ local_vars !! k = None ∧
       collect_locals local_vars keys acc = Raise (MkExn KeyError k None).
Proof.
  induction keys as [| k0 keys IH]; intros acc (k & Hk & Hmiss).
  { by apply elem_of_nil in Hk. }
  cbn [collect_locals]. unfold dict_getitem.
  destruct (local_vars !! k0) as [v |] eqn:Hk0.
  - rewrite bind_Ok.
    destruct (IH (<[k0 := v]> acc)) as (k' & Hk' & Hmiss' & ->).
    { exists k. split; [| done]. apply elem_of_cons in Hk as [-> | Hk]; [congruence | done]. }
    exists k'. split; [by right | done].
  - exists k0. split; [by left | done].
Qed.

(** The dictionary [get_init_args] builds, before the names to exclude are
    filtered out. *)
Lemma get_init_args_unfiltered (cls : PyClass) (local_vars : gmap string PyVal)
    (back : option Frame) (p0 : Param) (rest : list Param) (kwargs : gmap string PyVal) :
  init_signature cls = p0 :: rest →
  (∀ p, p ∈ init_signature cls → name p ≠ "" ∧ is_Some (local_vars !! name p)) →
  match _get_first_if_any (init_signature cls) VAR_KEYWORD with
  | Some kw => local_vars !! kw = Some (PyDict kwargs)
  | None => kwargs = ∅
  end →
  ∃ local_args,
    (∀ k, local_args !! k
          = if decide (k ∈ name <$> init_signature cls) then local_vars !! k else None) ∧
    get_init_args (MkFrame (Some cls) local_vars back)
    = Ok (filter (λ kv, kv.1 ∉ filtered_vars_of (name p0)
                           (_get_first_if_any (init_signature cls) VAR_POSITIONAL)
                           (_get_first_if_any (init_signature cls) VAR_KEYWORD)
                         ++ ["__class__"; "frame"; "frame_args"])
                 (kwargs ∪ local_args)).
Proof.
  intros Hsig Hlocals Hkw.
  unfold get_init_args, parse_class_init_keys. cbn [f_class f_locals].
  rewrite Hsig, bind_Ok, <- Hsig.
  destruct (collect_locals_returns local_vars (name <$> init_signature cls) ∅)
    as (la & -> & Hla).
  { intros k (p & -> & Hp)%list_elem_of_fmap. by apply Hlocals. }
  rewrite bind_Ok. exists la. split.
  { intros k. rewrite Hla. case_decide; [done | apply lookup_empty]. }
  destruct (_get_first_if_any (init_signature cls) VAR_KEYWORD) as [kw |] eqn:Hfirst.
  - assert (Hin : kw ∈ name <$> init_signature cls)
      by (by apply _get_first_if_any_name in Hfirst).
    assert (kw ≠ "") as Hne.
    { apply list_elem_of_fmap in Hin as (p & -> & Hp). by apply Hlocals. }
    cbn [truthy_name default]. rewrite bool_decide_eq_false_2 by done. cbn [negb].
    change (id kw) with kw. rewrite Hla, decide_True, Hkw by done.
    by cbn.
  - subst kwargs. cbn [truthy_name]. rewrite bind_Ok. by rewrite (left_id_L ∅ (∪)).
Qed.

(** X10.  Whatever the signature, a dictionary returned by [get_init_args]
    never has the keys ['__class__'], ['frame'] and ['frame_args'], nor the
    names of the first parameter, of the var-positional parameter and of the
    var-keyword parameter: a constructor argument called [frame] or
    [frame_args], or passed under such a name through [**kwargs], is left
    out. *)
Theorem get_init_args_excluded_names (cls : PyClass) (local_vars : gmap string PyVal)
    (back : option Frame) (n_self : string) (n_args n_kwargs : option string)
    (local_args : gmap string PyVal) :
  parse_class_init_keys cls = Ok (n_self, n_args, n_kwargs) →
  get_init_args (MkFrame (Some cls) local_vars back) = Ok local_args →
  local_args !! "__class__" = None ∧
  local_args !! "frame" = None ∧
  local_args !! "frame_args" = None ∧
  (∀ n, n ≠ "" → n = n_self ∨ n_args = Some n ∨ n_kwargs = Some n →
        local_args !! n = None).
Proof.
  intros Hparse. unfold get_init_args. cbn [f_class f_locals]. rewrite Hparse, bind_Ok.
  destruct (collect_locals _ _ _) as [la |]; [rewrite bind_Ok | done].
  set (excl := filtered_vars_of n_self n_args n_kwargs ++ _).
  intros Hrun.
  assert (Hex : ∀ k, k ∈ excl → local_args !! k = None).
  { intros k Hk.
    destruct (if truthy_name n_kwargs then _ else _) as [la' |]; [| done].
    rewrite bind_Ok in Hrun. injection Hrun as <-.
    apply map_lookup_filter_None. right. intros x _ Hnot. by apply Hnot. }
  assert (Hfixed : ∀ k, k ∈ ["__class__"; "frame"; "frame_args"] → k ∈ excl).
  { intros k Hk. apply elem_of_app. by right. }
  split; [apply Hex, Hfixed; by left |].
  split; [apply Hex, Hfixed; by right; left |].
  split; [apply Hex, Hfixed; by right; right; left |].
  intros n Hne Hn. apply Hex, elem_of_app. left.
  unfold filtered_vars_of. apply list_elem_of_omap.
  assert (Htruthy : truthy_name (Some n) = true).
  { cbn. by rewrite bool_decide_eq_false_2. }
  exists (Some n). split; [| by rewrite Htruthy].
  destruct Hn as [-> | [-> | ->]]; [by left | by right; left | by right; right; left].
Qed.

(** X11.  On the frame of a constructor whose signature has a first
    parameter, whose parameters all have a non-empty name bound in the
    locals, and whose var-keyword parameter, if any, is bound to a
    dictionary, [get_init_args] returns; under a key that is not excluded
    the result holds the entry of the var-keyword dictionary if there is
    one, otherwise the local of that name if it is a parameter, and nothing
    else. *)
Theorem get_init_args_collects (cls : PyClass) (local_vars : gmap string PyVal)
    (back : option Frame) (p0 : Param) (rest : list Param) (kwargs : gmap string PyVal) :
  init_signature cls = p0 :: rest →
  (∀ p, p ∈ init_signature cls → name p ≠ "" ∧ is_Some (local_vars !! name p)) →
  match _get_first_if_any (init_signature cls) VAR_KEYWORD with
  | Some kw => local_vars !! kw = Some (PyDict kwargs)
  | None => kwargs = ∅
  end →
  ∃ local_args,
    get_init_args (MkFrame (Some cls) local_vars back) = Ok local_args ∧
    ∀ k, local_args !! k =
      if decide (k ∈ [name p0; "__class__"; "frame"; "frame_args"]
                 ∨ _get_first_if_any (init_signature cls) VAR_POSITIONAL = Some k
                 ∨ _get_first_if_any (init_signature cls) VAR_KEYWORD = Some k)
      then None
      else match kwargs !! k with
           | Some v => Some v
           | None =>
               if decide (k ∈ name <$> init_signature cls) then local_vars !! k
               else None
           end.
Proof.
  intros Hsig Hlocals Hkw.
  destruct (get_init_args_unfiltered cls local_vars back p0 rest kwargs Hsig Hlocals Hkw)
    as (la & Hla & Hrun).
  eexists. split; [exact Hrun |]. intros k.
  set (n_args := _get_first_if_any (init_signature cls) VAR_POSITIONAL) in *.
  set (n_kwargs := _get_first_if_any (init_signature cls) VAR_KEYWORD) in *.
  assert (Hnames : ∀ n, n ∈ name <$> init_signature cls → n ≠ "").
  { intros n (p & -> & Hp)%list_elem_of_fmap. by apply Hlocals. }
  assert (Hexcl : k ∈ filtered_vars_of (name p0) n_args n_kwargs
                        ++ ["__class__"; "frame"; "frame_args"]
                  ↔ (k ∈ [name p0; "__class__"; "frame"; "frame_args"]
                     ∨ n_args = Some k ∨ n_kwargs = Some k)).
  { assert (Hp0 : name p0 ≠ "").
    { apply Hnames. rewrite Hsig. by left. }
    assert (Ha : ∀ n, n_args = Some n → n ≠ "").
    { intros n Hn. by apply Hnames, (_get_first_if_any_name _ VAR_POSITIONAL). }
    assert (Hk : ∀ n, n_kwargs = Some n → n ≠ "").
    { intros n Hn. by apply Hnames, (_get_first_if_any_name _ VAR_KEYWORD). }
    assert (Htruthy : ∀ n, n ≠ "" → truthy_name (Some n) = true).
    { intros n Hn. cbn. by rewrite bool_decide_eq_false_2. }
    unfold filtered_vars_of. rewrite elem_of_app, list_elem_of_omap. split.
    - intros [(o & Ho & Hsome) | Hfix]; [| left; by right].
      destruct (truthy_name o); [| done]. subst o.
      apply elem_of_cons in Ho as [[= ->] | Ho]; [left; by left |].
      apply elem_of_cons in Ho as [-> | Ho]; [by right; left |].
      apply list_elem_of_singleton in Ho as ->. by right; right.
    - intros [Hfix | [Hn | Hn]].
      + apply elem_of_cons in Hfix as [-> | Hfix]; [| by right].
        left. exists (Some (name p0)). split; [by left |]. by rewrite Htruthy.
      + left. exists (Some k). split; [rewrite <- Hn; by right; left |].
        rewrite Htruthy; [done | by apply Ha].
      + left. exists (Some k). split; [rewrite <- Hn; by right; right; left |].
        rewrite Htruthy; [done | by apply Hk]. }
  rewrite map_lookup_filter, lookup_union, Hla. cbn [fst].
  destruct (decide (k ∈ [name p0; "__class__"; "frame"; "frame_args"]
                    ∨ n_args = Some k ∨ n_kwargs = Some k)) as [Hdec | Hdec].
  - apply Hexcl in Hdec.
    destruct (kwargs !! k) as [v |],
             (if decide (k ∈ name <$> init_signature cls) then local_vars !! k else None);
      cbn; try done; by rewrite option_guard_False by (by intros ?).
  - assert (Hnot : k ∉ filtered_vars_of (name p0) n_args n_kwargs
                         ++ ["__class__"; "frame"; "frame_args"])
      by (by rewrite Hexcl).
    destruct (kwargs !! k) as [v |],
             (if decide (k ∈ name <$> init_signature cls) then local_vars !! k else None);
      cbn; try done; by rewrite option_guard_True.
Qed.

(** X12.  When the signature has a first parameter and some parameter is
    not among the locals of the frame (it was deleted in the constructor,
    say), [get_init_args] raises the [KeyError] of a missing parameter. *)
Theorem get_init_args_missing_local (cls : PyClass) (local_vars : gmap string PyVal)
    (back : option Frame) (p0 p : Param) (rest : list Param) :
  init_signature cls = p0 :: rest →
  p ∈ init_signature cls →
  local_vars !! name p = None →
  ∃ q, q ∈ init_signature cls ∧ local_vars !! name q = None ∧
       get_init_args (MkFrame (Some cls) local_vars back)
       = Raise (MkExn KeyError (name q) None).
Proof.
  intros Hsig Hp Hmiss.
  unfold get_init_args, parse_class_init_keys. cbn [f_class f_locals].
  rewrite Hsig, bind_Ok, <- Hsig.
  destruct (collect_locals_missing local_vars (name <$> init_signature cls) ∅)
    as (k & Hk & Hk' & ->).
  { exists (name p). split; [| done]. apply list_elem_of_fmap. by exists p. }
  apply list_elem_of_fmap in Hk as (q & -> & Hq). by exists q.
Qed.

(** X13.  The list given to [collect_init_args] is only appended to: the
    result for [path_args] is [path_args] followed by the result for the
    empty list, and the call raises for the one exactly when it raises for
    the other. *)
Theorem collect_init_args_accumulates (frame : Frame)
    (path_args : list (gmap string PyVal)) (inside : bool) :
  collect_init_args frame path_args inside
  = (collected ← collect_init_args frame [] inside; Ok (path_args ++ collected)).
Proof.
  rewrite (collect_init_args_walk frame path_args), (collect_init_args_walk frame []).
  by destruct (mapM get_init_args (inheritance_path frame inside)).
Qed.

End InitArgsMore.

Lemma get_init_args_excluded_names_witness :
  ({[ "lr" := PyInt 3; "momentum" := PyInt 9 ]} : gmap string PyVal) !! "kwargs" = None.
Proof.
  apply (get_init_args_excluded_names Base_class
           {[ "self" := PyObject "model"; "lr" := PyInt 3;
              "kwargs" := PyDict {[ "momentum" := PyInt 9 ]} ]}
           (Some Child_init_frame) "self" None (Some "kwargs")
           {[ "lr" := PyInt 3; "momentum" := PyInt 9 ]});
    [reflexivity | vm_compute; reflexivity | discriminate | by right; right].
Defined.

Lemma get_init_args_collects_witness :
  ∃ local_args, parsing.get_init_args Base_init_frame = Ok local_args.
Proof.
  destruct (get_init_args_collects Base_class
              {[ "self" := PyObject "model"; "lr" := PyInt 3;
                 "kwargs" := PyDict {[ "momentum" := PyInt 9 ]} ]}
              (Some Child_init_frame)
              (parsing.MkParam "self" parsing.POSITIONAL_OR_KEYWORD)
              [ parsing.MkParam "lr" parsing.POSITIONAL_OR_KEYWORD;
                parsing.MkParam "kwargs" parsing.VAR_KEYWORD ]
              {[ "momentum" := PyInt 9 ]}) as (local_args & Hrun & _).
  - reflexivity.
  - intros p Hp.
    repeat (apply elem_of_cons in Hp as [-> | Hp]; [split; [discriminate | by eexists] |]).
    by apply elem_of_nil in Hp.
  - reflexivity.
  - by exists local_args.
Defined.

Lemma get_init_args_missing_local_witness :
  ∃ q, parsing.get_init_args
         (parsing.MkFrame (Some Base_class)
            {[ "self" := PyObject "model"; "kwargs" := PyDict ∅ ]} None)
       = Raise (MkExn KeyError (parsing.name q) None).
Proof.
  destruct (get_init_args_missing_local Base_class
              {[ "self" := PyObject "model"; "kwargs" := PyDict ∅ ]} None
              (parsing.MkParam "self" parsing.POSITIONAL_OR_KEYWORD)
              (parsing.MkParam "lr" parsing.POSITIONAL_OR_KEYWORD)
              [ parsing.MkParam "lr" parsing.POSITIONAL_OR_KEYWORD;
                parsing.MkParam "kwargs" parsing.VAR_KEYWORD ])
    as (q & _ & _ & Hrun).
  - reflexivity.
  - by right; left.
  - reflexivity.
  - by exists q.
Defined.

(** ** [flatten_dict] *)
Section FlattenDictSpec.
Import parsing.
Context {V : Type}.
Implicit Types (source items : list (string * Nested V)) (result : gmap string V).

Example flatten_dict_nested :
  flatten_dict
    [ ("a", NOther 1%Z);
      ("b", NDict [ ("a", NOther 2%Z); ("c", NDict [ ("d", NOther 3%Z) ]) ]);
      ("e", NDict []) ] None
  = {[ "a" := 2%Z; "d" := 3%Z ]}.
Proof. vm_compute. reflexivity. Qed.

Lemma flatten_item_NDict (k : string) items result :
  flatten_item k (NDict items) result = flatten_items items result.
Proof.
  unfold flatten_items. cbn [flatten_item].
  revert result. induction items as [| [k' v'] items IH]; intros result; [done |].
  cbn [foldl]. by rewrite IH.
Qed.

Lemma leaves_of_NDict (k : string) items : leaves_of k (NDict items) = leaves items.
Proof.
  unfold leaves. cbn [leaves_of].
  induction items as [| [k' v'] items IH]; [done |]. cbn [flat_map]. by rewrite IH.
Qed.

Lemma foldl_insert_union (l : list (string * V)) :
  ∀ result, foldl (λ r kv, <[kv.1 := kv.2]> r) result l
            = list_to_map (reverse l) ∪ result.
Proof.
  induction l as [| [k x] l IH]; intros result; cbn [foldl].
  - rewrite reverse_nil, list_to_map_nil. by rewrite (left_id_L ∅ (∪)).
  - rewrite IH, reverse_cons, list_to_map_app. cbn [list_to_map foldr fst snd].
    rewrite <- (assoc_L (∪)). f_equal.
    by rewrite insert_empty, <- insert_union_singleton_l.
Qed.

Lemma flatten_items_app items1 items2 result :
  flatten_items (items1 ++ items2) result
  = flatten_items items2 (flatten_items items1 result).
Proof. unfold flatten_items. apply foldl_app. Qed.

(** The loop writes the leaves in the order of the walk. *)
Lemma flatten_item_leaves (v : Nested V) :
  ∀ k result, flatten_item k v result
              = foldl (λ r kv, <[kv.1 := kv.2]> r) result (leaves_of k v).
Proof.
  induction v as [x | items IH] using Nested_items_ind; intros k result; [done |].
  rewrite flatten_item_NDict, leaves_of_NDict. unfold flatten_items, leaves.
  revert result. induction IH as [| [k' v'] items Hv _ IHitems]; intros result; [done |].
  cbn [foldl flat_map fst snd]. rewrite foldl_app, <- Hv. apply IHitems.
Qed.

Lemma flatten_items_closed_form source result :
  flatten_items source result = list_to_map (reverse (leaves source)) ∪ result.
Proof.
  rewrite <- (flatten_item_NDict "" source result).
  rewrite (flatten_item_leaves (NDict source) "" result), (leaves_of_NDict "" source).
  apply foldl_insert_union.
Qed.

(** X14.  [flatten_dict] writes every value that is not a dictionary under
    its own key, at whatever depth it sits, in the order of a depth-first
    walk: the result is the given [result] (empty for [None]) overridden by
    the leaves, a later leaf overriding an earlier one with the same key. *)
Theorem flatten_dict_last_leaf_wins source (result : option (gmap string V)) :
  flatten_dict source result
    = list_to_map (reverse (leaves source)) ∪ default ∅ result ∧
  (∀ k, k ∉ (leaves source).*1 →
        flatten_dict source result !! k = default ∅ result !! k) ∧
  (∀ before k x after,
     leaves source = before ++ (k, x) :: after → k ∉ after.*1 →
     flatten_dict source result !! k = Some x).
Proof.
  assert (Hform : flatten_dict source result
                  = list_to_map (reverse (leaves source)) ∪ default ∅ result).
  { unfold flatten_dict. rewrite flatten_items_closed_form. by destruct result. }
  split; [done |]. rewrite Hform. split.
  - intros k Hk. rewrite lookup_union_r; [done |].
    apply not_elem_of_list_to_map_1. by rewrite fmap_reverse, elem_of_reverse.
  - intros before k x after -> Hk.
    rewrite reverse_app, reverse_cons, <- app_assoc, list_to_map_app.
    apply lookup_union_Some_l. rewrite lookup_union_r.
    + cbn. by rewrite lookup_insert_eq.
    + apply not_elem_of_list_to_map_1. by rewrite fmap_reverse, elem_of_reverse.
Qed.

(** X15.  Flattening composes: flattening into a given [result] is
    flattening into a fresh dictionary and adding the entries of [result]
    that were not overridden; flattening a source made of two parts is
    flattening the second part into the result of the first. *)
Theorem flatten_dict_composes source1 source2 result :
  flatten_dict source1 (Some result) = flatten_dict source1 None ∪ result ∧
  flatten_dict (source1 ++ source2) (Some result)
    = flatten_dict source2 (Some (flatten_dict source1 (Some result))).
Proof.
  unfold flatten_dict. split; [| apply flatten_items_app].
  rewrite !flatten_items_closed_form. by rewrite (right_id_L ∅ (∪)).
Qed.

(** X16.  The keys of the result are the keys of the given [result] and
    the keys of the leaves: the key under which a nested dictionary is
    stored is dropped, unless it is also the key of a leaf or of [result];
    an empty nested dictionary leaves no trace. *)
Theorem flatten_dict_keys source (result : option (gmap string V)) (k : string) :
  (is_Some (flatten_dict source result !! k)
     ↔ (k ∈ (leaves source).*1 ∨ is_Some (default ∅ result !! k))) ∧
  flatten_dict (source ++ [(k, NDict [])]) result = flatten_dict source result.
Proof.
  unfold flatten_dict. split.
  - rewrite flatten_items_closed_form.
    assert (Hdom : is_Some ((list_to_map (reverse (leaves source)) : gmap string V) !! k)
                   ↔ k ∈ (leaves source).*1).
    { rewrite <- elem_of_dom, dom_list_to_map_L, elem_of_list_to_set.
      by rewrite fmap_reverse, elem_of_reverse. }
    destruct result as [r |]; rewrite lookup_union_is_Some, Hdom; done.
  - by rewrite flatten_items_app.
Qed.

(** X17.  A dictionary that holds no dictionary is copied: flattened into
    a fresh dictionary it gives a dictionary with the same entries. *)
Theorem flatten_dict_flat (items : list (string * V)) :
  NoDup items.*1 →
  flatten_dict (flat_source items) None = list_to_map items ∧
  ∀ k x, flatten_dict (flat_source items) None !! k = Some x ↔ (k, x) ∈ items.
Proof.
  intros Hnd.
  assert (Hleaves : leaves (flat_source items) = items).
  { unfold leaves, flat_source. induction items as [| [k x] items IH]; [done |].
    cbn. f_equal. apply IH. by apply NoDup_cons in Hnd as [_ ?]. }
  assert (Hform : flatten_dict (flat_source items) None = list_to_map items).
  { unfold flatten_dict. rewrite flatten_items_closed_form, Hleaves.
    rewrite (right_id_L ∅ (∪)). apply list_to_map_proper.
    - by rewrite fmap_reverse, reverse_Permutation.
    - apply reverse_Permutation. }
  split; [done |]. intros k x. rewrite Hform. symmetry. by apply elem_of_list_to_map.
Qed.

End FlattenDictSpec.

Lemma flatten_dict_flat_witness :
  parsing.flatten_dict (flat_source [("lr", 3%Z); ("depth", 4%Z)]) None
  = list_to_map [("lr", 3%Z); ("depth", 4%Z)].
Proof.
  apply (flatten_dict_flat [("lr", 3%Z); ("depth", 4%Z)]).
  cbn. apply NoDup_cons. split; [| apply NoDup_singleton].
  intros Hin. apply list_elem_of_singleton in Hin. discriminate Hin.
Defined.

(** ** [AttributeDict.__repr__] *)
Section AttributeDictRepr.
Import parsing.AttributeDict.
Variable py_str : PyVal → Result string.

(** The doctest of the class, after [ad.key1 = 2]. *)
Example attribute_dict_repr_doctest :
  let show (v : PyVal) : Result string :=
    match v with
    | PyInt 2 => Ok "2"
    | PyInt 42 => Ok "42"
    | PyStr s => Ok s
    | PyFloat _ => Ok "3.14"
    | _ => Ok ""
    end in
  __repr__ show {[ "key1" := PyInt 2; "key2" := PyStr "abc";
                   "my-key" := PyFloat 0x40091EB851EB851F; "new_key" := PyInt 42 ]}
  = Ok (join newline [ quoted_key "key1" +:+ "    2";
                       quoted_key "key2" +:+ "    abc";
                       quoted_key "my-key" +:+ "  3.14";
                       quoted_key "new_key" +:+ " 42" ]).
Proof. vm_compute. reflexivity. Qed.

Lemma string_length_app (s1 s2 : string) :
  String.length (s1 +:+ s2) = (String.length s1 + String.length s2)%nat.
Proof.
  induction s1 as [| c s1 IH]; [done |].
  change (S (String.length (s1 +:+ s2)) = S (String.length s1 + String.length s2)).
  by rewrite IH.
Qed.

Lemma string_length_of_list (l : list ascii) :
  String.length (string_of_list_ascii l) = length l.
Proof. induction l as [| c l IH]; cbn; [done | by f_equal]. Qed.

Lemma quoted_key_length (n : string) :
  String.length (quoted_key n) = (String.length n + 3)%nat.
Proof. unfold quoted_key. rewrite !string_length_app. cbn [String.length dquote]. lia. Qed.

Lemma format_width_length (width : nat) (s : string) :
  String.length (format_width width s) = (width `max` String.length s)%nat.
Proof.
  unfold format_width. rewrite string_length_app, string_length_of_list, length_replicate.
  lia.
Qed.

(** The rows, or the exception of the first [str] that raises. *)
Lemma repr_rows_cases (self : gmap string PyVal) (width : nat) (keys : list string) :
  (∀ n, n ∈ keys → is_Some (self !! n)) →
  match repr_rows py_str self width keys with
  | Ok rows =>
      Forall2 (λ n row, ∃ v s, self !! n = Some v ∧ py_str v = Ok s ∧
                               row = repr_row width n s) keys rows
  | Raise e => ∃ n v, self !! n = Some v ∧ py_str v = Raise e
  end.
Proof.
  induction keys as [| n keys IH]; intros Hkeys; [constructor |].
  destruct (Hkeys n) as [v Hv]; [by left |].
  cbn [repr_rows]. unfold dict_getitem. rewrite Hv, bind_Ok.
  destruct (py_str v) as [s | e] eqn:Hs; [rewrite bind_Ok | by exists n, v].
  specialize (IH (λ n' Hn', Hkeys n' (list_elem_of_further _ _ _ Hn'))).
  destruct (repr_rows py_str self width keys) as [rows | e]; [rewrite bind_Ok | done].
  constructor; [by exists v, s | done].
Qed.

Lemma sorted_keys (self : gmap string PyVal) :
  sorted (map_to_list self).*1 ≡ₚ (map_to_list self).*1 ∧
  Sorted String.le (sorted (map_to_list self).*1) ∧
  ∀ n, n ∈ sorted (map_to_list self).*1 ↔ is_Some (self !! n).
Proof.
  unfold sorted. split; [apply merge_sort_Permutation |].
  split; [apply (Sorted_merge_sort String.le) |].
  intros n. rewrite merge_sort_Permutation, list_elem_of_fmap. split.
  - intros ([n' v] & -> & Hin). apply elem_of_map_to_list in Hin. by exists v.
  - intros [v Hv]. exists (n, v). by rewrite elem_of_map_to_list.
Qed.

Lemma join_nonempty (sep r : string) (rows : list string) :
  r ≠ "" → join sep (r :: rows) ≠ "".
Proof. destruct r as [| c r]; [done |]. by destruct rows. Qed.

Lemma repr_row_nonempty (width : nat) (n s : string) : repr_row width n s ≠ "".
Proof. done. Qed.

(** The text of a non-empty dictionary, or the exception of [str]. *)
Lemma __repr___cases (self : gmap string PyVal) :
  self ≠ ∅ →
  match __repr__ py_str self with
  | Ok out =>
      ∃ rows,
        out = join newline rows ∧
        Forall2 (λ n row, ∃ v s, self !! n = Some v ∧ py_str v = Ok s ∧
                   row = repr_row (max_list (String.length <$> (map_to_list self).*1) + 3)
                           n s)
                (sorted (map_to_list self).*1) rows
  | Raise e => ∃ n v, self !! n = Some v ∧ py_str v = Raise e
  end.
Proof.
  intros Hne. unfold __repr__.
  rewrite bool_decide_eq_false_2 by (by apply map_size_non_empty_iff).
  destruct (sorted_keys self) as (_ & _ & Hin).
  pose proof (repr_rows_cases self
                (max_list (String.length <$> (map_to_list self).*1) + 3)
                (sorted (map_to_list self).*1)) as Hrows.
  destruct (repr_rows py_str self _ _) as [rows | e].
  - rewrite bind_Ok. exists rows. split; [done |]. apply Hrows. intros n Hn. by apply Hin.
  - apply Hrows. intros n Hn. by apply Hin.
Qed.

(** X18.  For an AttributeDict whose keys are strings: [__repr__] gives the
    empty string exactly for the empty dictionary; it returns whenever
    [str] returns on every value; and an exception that leaves it is one
    that [str] raised on a value of the dictionary. *)
Theorem attribute_dict_repr_empty (self : gmap string PyVal) :
  (__repr__ py_str self = Ok "" ↔ self = ∅) ∧
  ((∀ n v, self !! n = Some v → ∃ s, py_str v = Ok s) →
   ∃ out, __repr__ py_str self = Ok out) ∧
  (∀ e, __repr__ py_str self = Raise e →
        ∃ n v, self !! n = Some v ∧ py_str v = Raise e).
Proof.
  destruct (decide (self = ∅)) as [-> | Hne].
  { split; [done |]. split; [by exists "" | done]. }
  pose proof (__repr___cases self Hne) as Hcases.
  destruct (__repr__ py_str self) as [out | e].
  - split; [| split; [by exists out | done]].
    split; [| done]. intros [= ->]. destruct Hcases as (rows & Hjoin & Hrows).
    destruct (sorted_keys self) as (Hperm & _ & _).
    destruct (sorted (map_to_list self).*1) as [| n keys].
    + apply map_size_empty_iff.
      by rewrite <- length_map_to_list, <- (length_fmap fst), <- Hperm.
    + inversion Hrows as [| ? row ? rows' (v & s & _ & _ & Hrow) _]; subst.
      exfalso. symmetry in Hjoin. revert Hjoin. apply join_nonempty, repr_row_nonempty.
  - split; [split; [done | by intros ->] |]. split.
    + intros Hstr. destruct Hcases as (n & v & Hv & Hraise).
      destruct (Hstr n v Hv) as [s Hs]. congruence.
    + intros e' [= <-]. exact Hcases.
Qed.

(** X19.  The text of a non-empty AttributeDict on whose values [str]
    returns has one row for each key, in increasing order of the keys; a
    row is the key between double quotes and a colon, padded with spaces,
    a space, and [str] of the value; the padding makes the part before the
    value as long as the longest key plus three characters in every row,
    so that the values are aligned. *)
Theorem attribute_dict_repr_rows (self : gmap string PyVal) :
  self ≠ ∅ →
  (∀ n v, self !! n = Some v → ∃ s, py_str v = Ok s) →
  let width := (max_list (String.length <$> (map_to_list self).*1) + 3)%nat in
  ∃ keys rows,
    __repr__ py_str self = Ok (join newline rows) ∧
    keys ≡ₚ (map_to_list self).*1 ∧
    Sorted String.le keys ∧
    length rows = size self ∧
    Forall2 (λ n row,
               ∃ v s, self !! n = Some v ∧ py_str v = Ok s ∧
                      row = format_width width (quoted_key n) +:+ " " +:+ s ∧
                      String.length (format_width width (quoted_key n)) = width)
            keys rows.
Proof.
  intros Hne Hstr width.
  pose proof (__repr___cases self Hne) as Hcases.
  destruct (__repr__ py_str self) as [out | e].
  2:{ destruct Hcases as (n & v & Hv & Hraise). destruct (Hstr n v Hv). congruence. }
  destruct Hcases as (rows & -> & Hrows).
  destruct (sorted_keys self) as (Hperm & Hsorted & Hin).
  exists (sorted (map_to_list self).*1), rows.
  split; [done |]. split; [done |]. split; [done |]. split.
  - rewrite <- (Forall2_length _ _ _ Hrows), Hperm, length_fmap.
    apply length_map_to_list.
  - assert (Hlong : ∀ n, n ∈ sorted (map_to_list self).*1 →
                         (String.length n + 3 ≤ width)%nat).
    { intros n Hn. rewrite Hperm in Hn.
      assert (String.length n ≤ max_list (String.length <$> (map_to_list self).*1))%nat;
        [| unfold width; lia].
      apply max_list_elem_of_le, list_elem_of_fmap. by exists n. }
    fold width in Hrows. clear Hperm Hsorted Hin.
    induction Hrows as [| n row keys rows (v & s & Hv & Hs & ->) _ IH]; constructor.
    + exists v, s. split; [done |]. split; [done |]. split; [done |].
      rewrite format_width_length, quoted_key_length.
      assert (String.length n + 3 ≤ width)%nat by (apply Hlong; by left). lia.
    + apply IH. intros n' Hn'. apply Hlong. by right.
Qed.

End AttributeDictRepr.

Lemma attribute_dict_repr_rows_witness :
  ∃ keys rows,
    parsing.AttributeDict.__repr__ (λ _, Ok "v") {[ "key1" := PyInt 1 ]}
    = Ok (parsing.AttributeDict.join parsing.AttributeDict.newline rows) ∧
    keys ≡ₚ (map_to_list ({[ "key1" := PyInt 1 ]} : gmap string PyVal)).*1.
Proof.
  destruct (attribute_dict_repr_rows (λ _, Ok "v") {[ "key1" := PyInt 1 ]})
    as (keys & rows & Hrun & Hperm & _).
  - apply map_non_empty_singleton.
  - intros n v _. by exists "v".
  - exists keys, rows. split; [exact Hrun | exact Hperm].
Defined.

(** ** More on [lightning_hasattr], [lightning_getattr], [lightning_setattr] *)
Section LightningAttrMore.
Import parsing.
Variable builtin_attr : Val → string → option Val.
Implicit Types (h : gmap nat Obj) (o model holder value : Val).
Implicit Types (attribute name : string) (holders ws : list Val).

#[local] Abbreviation py_getattr := (parsing.py_getattr builtin_attr).
#[local] Abbreviation py_hasattr := (parsing.py_hasattr builtin_attr).
#[local] Abbreviation py_getattr_default := (parsing.py_getattr_default builtin_attr).
#[local] Abbreviation _lightning_get_all_attr_holders :=
  (parsing._lightning_get_all_attr_holders builtin_attr).
#[local] Abbreviation _lightning_get_first_attr_holder :=
  (parsing._lightning_get_first_attr_holder builtin_attr).
#[local] Abbreviation lightning_hasattr := (parsing.lightning_hasattr builtin_attr).
#[local] Abbreviation lightning_getattr := (parsing.lightning_getattr builtin_attr).
#[local] Abbreviation lightning_setattr := (parsing.lightning_setattr builtin_attr).
#[local] Abbreviation read_holder := (read_holder builtin_attr).
#[local] Abbreviation model_holder := (model_holder builtin_attr).
#[local] Abbreviation hparams_holder := (hparams_holder builtin_attr).
#[local] Abbreviation datamodule_holder := (datamodule_holder builtin_attr).
#[local] Abbreviation hparams_part := (hparams_part builtin_attr).
#[local] Abbreviation datamodule_part := (datamodule_part builtin_attr).

(** The datamodule shadows the model: both hold [lr], and the value read is
    the datamodule's. *)
Example lightning_getattr_reads_datamodule :
  let h : gmap nat Obj :=
    {[ 0%nat := MkObj InstanceObj ∅ {[ "lr" := VInt 1; "trainer" := VRef 1 ]};
       1%nat := MkObj InstanceObj ∅ {[ "datamodule" := VRef 2 ]};
       2%nat := MkObj InstanceObj ∅ {[ "lr" := VInt 5 ]} ]} in
  parsing.lightning_getattr builtin_attr_sample h (VRef 0) "lr" = Ok (VInt 5).
Proof. vm_compute. reflexivity. Qed.

(** A trainer without a [datamodule] attribute: the three functions end
    with the [AttributeError] of that lookup, although the model has [lr]. *)
Example lightning_hasattr_trainer_without_datamodule :
  let h : gmap nat Obj :=
    {[ 0%nat := MkObj InstanceObj ∅ {[ "lr" := VInt 1; "trainer" := VRef 1 ]};
       1%nat := MkObj InstanceObj ∅ ∅ ]} in
  raised_class (parsing.lightning_hasattr builtin_attr_sample h (VRef 0) "lr")
  = Some AttributeError.
Proof. vm_compute. reflexivity. Qed.

(** [None] has attributes of its own, such as [__doc__]: as a model it
    becomes a holder, and the holder that is read is then [None], which
    [lightning_hasattr] takes for the absence of a holder. *)
Example lightning_hasattr_model_None :
  let builtin_attr (o : Val) (name : string) : option Val :=
    match o, name with
    | VNone, "__doc__" => Some VNone
    | _, _ => None
    end in
  parsing._lightning_get_all_attr_holders builtin_attr ∅ VNone "__doc__" = Ok [VNone] ∧
  parsing.lightning_hasattr builtin_attr ∅ VNone "__doc__" = Ok false.
Proof. cbn zeta. split; vm_compute; reflexivity. Qed.

Lemma all_holders_exact h model attribute holders :
  _lightning_get_all_attr_holders h model attribute = Ok holders →
  holders = option_list (model_holder h model attribute)
            ++ option_list (hparams_holder h model attribute)
            ++ option_list (datamodule_holder h model attribute).
Proof.
  rewrite all_holders_parts.
  unfold hparams_part, datamodule_part, model_holder, hparams_holder, datamodule_holder.
  destruct (py_hasattr h model "hparams").
  - destruct (py_getattr h model "hparams") as [hp | e']; [| done]. rewrite !bind_Ok.
    destruct (py_contains h hp attribute) as [c | e']; [| done]. rewrite !bind_Ok.
    destruct (is_not_None _).
    + destruct (py_getattr h _ "datamodule") as [dm | e']; [| done]. rewrite !bind_Ok.
      intros [= <-]. by destruct (py_hasattr h model attribute), c, (_ && _).
    + rewrite !bind_Ok. intros [= <-]. by destruct (py_hasattr h model attribute), c.
  - rewrite !bind_Ok. destruct (is_not_None _).
    + destruct (py_getattr h _ "datamodule") as [dm | e']; [| done]. rewrite !bind_Ok.
      intros [= <-]. by destruct (py_hasattr h model attribute), (_ && _).
    + rewrite !bind_Ok. intros [= <-]. by destruct (py_hasattr h model attribute).
Qed.

Lemma all_holders_raise_origin h model attribute (e : Exn) :
  _lightning_get_all_attr_holders h model attribute = Raise e →
  (∃ hparams, py_getattr h model "hparams" = Ok hparams ∧
              py_contains h hparams attribute = Raise e) ∨
  py_getattr h (py_getattr_default h model "trainer" VNone) "datamodule" = Raise e.
Proof.
  rewrite all_holders_parts. unfold hparams_part, datamodule_part.
  destruct (py_hasattr h model "hparams") eqn:Hhas.
  - apply py_hasattr_getattr in Hhas as [hp Hhp]. rewrite Hhp, !bind_Ok.
    destruct (py_contains h hp attribute) as [c | e'] eqn:Hc.
    + rewrite !bind_Ok. destruct (is_not_None _); [| done].
      destruct (py_getattr h _ "datamodule") as [dm | e']; [done |].
      intros [= ->]. by right.
    + intros [= ->]. left. by exists hp.
  - rewrite !bind_Ok. destruct (is_not_None _); [| done].
    destruct (py_getattr h _ "datamodule") as [dm | e']; [done |].
    intros [= ->]. by right.
Qed.

(** X20.  When the holders can be computed they are, in this order, the
    model if it has the attribute, its [hparams] if they contain it, and
    the datamodule of its trainer if it has it: at most three.
    [lightning_hasattr] is [True] exactly when there is a holder, the model
    [None] as only holder not counting as one.  The computation fails only
    in the test [attribute in model.hparams] or in the lookup of
    [trainer.datamodule], and then the three functions end with the same
    exception, [lightning_setattr] leaving the heap as it was. *)
Theorem lightning_holders_in_order h model attribute :
  (∀ holders, _lightning_get_all_attr_holders h model attribute = Ok holders →
     holders = option_list (model_holder h model attribute)
               ++ option_list (hparams_holder h model attribute)
               ++ option_list (datamodule_holder h model attribute) ∧
     (length holders ≤ 3)%nat ∧
     lightning_hasattr h model attribute
       = Ok (bool_decide (holders ≠ [] ∧ holders ≠ [VNone])) ∧
     (model ≠ VNone → holders ≠ [VNone])) ∧
  (∀ e, _lightning_get_all_attr_holders h model attribute = Raise e →
     lightning_hasattr h model attribute = Raise e ∧
     lightning_getattr h model attribute = Raise e ∧
     (∀ value, lightning_setattr h model attribute value = (h, Raise e)) ∧
     ((∃ hparams, py_getattr h model "hparams" = Ok hparams ∧
                  py_contains h hparams attribute = Raise e) ∨
      py_getattr h (py_getattr_default h model "trainer" VNone) "datamodule" = Raise e)).
Proof.
  split.
  - intros holders Hall. pose proof (all_holders_exact _ _ _ _ Hall) as Hshape.
    split; [done |]. split.
    { rewrite Hshape.
      destruct (model_holder _ _ _), (hparams_holder _ _ _), (datamodule_holder _ _ _);
        cbn; lia. }
    split.
    + destruct (lightning_hasattr h model attribute) as [b | e] eqn:Hhas.
      * destruct (lightning_hasattr_holders _ _ _ _ _ Hhas) as (holders' & Hall' & Ht & Hf).
        assert (holders' = holders) as -> by congruence.
        f_equal. destruct b; symmetry.
        -- destruct (Ht eq_refl) as [Hne Hlast].
           apply bool_decide_eq_true_2. split; [done |]. by intros ->.
        -- apply bool_decide_eq_false_2. intros [Hne Hne'].
           by destruct (Hf eq_refl) as [? | [_ ?]].
      * unfold lightning_hasattr, _lightning_get_first_attr_holder in Hhas.
        rewrite Hall, bind_Ok in Hhas. by case_bool_decide.
    + intros Hmodel ->.
      destruct (last_holder_None _ _ _ _ _ Hall); done.
  - intros e Hall.
    unfold lightning_hasattr, lightning_getattr, lightning_setattr,
      _lightning_get_first_attr_holder.
    rewrite Hall. split; [done |]. split; [done |]. split; [done |].
    by apply all_holders_raise_origin.
Qed.

(** X21.  [lightning_getattr] reads the last holder: the datamodule if it
    has the attribute, otherwise the [hparams] if they contain it,
    otherwise the model; the holder is read by item if it is a dictionary
    and by attribute otherwise.  With no holder, or with the model [None]
    as only holder, it raises [AttributeError]. *)
Theorem lightning_getattr_precedence h model attribute holders :
  _lightning_get_all_attr_holders h model attribute = Ok holders →
  lightning_getattr h model attribute =
    match datamodule_holder h model attribute,
          hparams_holder h model attribute,
          model_holder h model attribute with
    | Some datamodule, _, _ => read_holder h datamodule attribute
    | None, Some hparams, _ => read_holder h hparams attribute
    | None, None, Some _ =>
        if is_not_None model then read_holder h model attribute
        else raise AttributeError (no_holder_message attribute)
    | None, None, None => raise AttributeError (no_holder_message attribute)
    end.
Proof.
  intros Hall. pose proof (all_holders_exact _ _ _ _ Hall) as Hshape.
  unfold lightning_getattr, _lightning_get_first_attr_holder. rewrite Hall, bind_Ok.
  destruct (datamodule_holder h model attribute) as [dm |] eqn:Hdm.
  { assert (Hlast : List.last holders VNone = dm).
    { rewrite Hshape. cbn [option_list]. rewrite app_assoc. apply last_last. }
    assert (Hnn : is_not_None dm = true).
    { unfold datamodule_holder in Hdm. revert Hdm.
      destruct (is_not_None _); [| done].
      destruct (py_getattr h _ "datamodule") as [dm' |]; [| done].
      destruct (is_not_None dm') eqn:Hn; [| done]. cbn [andb].
      destruct (py_hasattr h dm' attribute); [| done]. by intros [= <-]. }
    rewrite bool_decide_eq_false_2, bind_Ok, Hlast, Hnn; [done |].
    rewrite Hshape, !length_app. cbn. lia. }
  destruct (hparams_holder h model attribute) as [hp |] eqn:Hhp.
  { assert (Hlast : List.last holders VNone = hp).
    { rewrite Hshape. cbn [option_list]. rewrite app_nil_r. apply last_last. }
    assert (Hnn : is_not_None hp = true).
    { unfold hparams_holder in Hhp. revert Hhp.
      destruct (py_hasattr h model "hparams"); [| done].
      destruct (py_getattr h model "hparams") as [hp' |]; [| done].
      destruct (py_contains h hp' attribute) as [[|] |] eqn:Hc; try done.
      intros [= <-]. by destruct hp'. }
    rewrite bool_decide_eq_false_2, bind_Ok, Hlast, Hnn; [done |].
    rewrite Hshape, !length_app. cbn. lia. }
  unfold model_holder in *. destruct (py_hasattr h model attribute) eqn:Hm.
  - rewrite Hshape. cbn [option_list app length].
    rewrite bool_decide_eq_false_2, bind_Ok by done.
    change (List.last _ VNone) with model.
    by destruct (is_not_None model).
  - by rewrite Hshape.
Qed.

Lemma same_shape_refl h attribute : same_shape h h attribute.
Proof. by intros o name. Qed.

Lemma same_shape_trans h1 h2 h3 attribute :
  same_shape h1 h2 attribute → same_shape h2 h3 attribute → same_shape h1 h3 attribute.
Proof.
  intros H12 H23 o name.
  destruct (H12 o name) as (Hk1 & Hc1 & Hs1 & Hn1), (H23 o name) as (Hk2 & Hc2 & Hs2 & Hn2).
  split; [congruence |]. split; [congruence |]. split; [by intros ?%Hs1%Hs2 |].
  intros Hne. by rewrite Hn2, Hn1.
Qed.

Lemma touch_one h o attribute value :
  let r := if isinstance_dict h o then py_setitem h o attribute value
           else py_setattr h o attribute value in
  match r with
  | Ok h' => stored_in h h' [o] attribute value
  | Raise _ => True
  end.
Proof.
  cbn zeta. destruct (accepts_assignment h o attribute) eqn:Hacc.
  - by destruct (write_one h o attribute value Hacc) as (h' & -> & Hst).
  - by destruct (refuse_one h o attribute value Hacc) as (e & -> & _).
Qed.

Lemma set_in_holders_same_shape ws attribute value : ∀ h,
  same_shape h (set_in_holders h ws attribute value).1 attribute.
Proof.
  induction ws as [| o ws IH]; intros h; [apply same_shape_refl |].
  cbn [set_in_holders].
  pose proof (touch_one h o attribute value) as Hone. cbn zeta in Hone.
  destruct (if isinstance_dict h o then _ else _) as [h1 | e];
    [| apply same_shape_refl].
  destruct Hone as (Hkind & Hclass & Hslot).
  apply (same_shape_trans h h1); [| apply IH].
  intros o' name. split; [apply Hkind |]. split; [apply Hclass |].
  rewrite Hslot. split.
  - case_bool_decide; [by eexists | done].
  - intros Hne. rewrite bool_decide_eq_false_2; [done |]. by intros [_ ?].
Qed.

(** X22.  Whatever the heap, the model, the attribute and the value, and
    whether it returns or raises, [lightning_setattr] removes nothing and
    touches only the attribute named: afterwards every object is of the
    same kind and class as before, every entry it had is still there, and
    only entries under [attribute] can have changed or appeared. *)
Theorem lightning_setattr_keeps_shape h model attribute value :
  same_shape h (lightning_setattr h model attribute value).1 attribute.
Proof.
  unfold lightning_setattr.
  destruct (_lightning_get_all_attr_holders h model attribute) as [holders | e];
    [| apply same_shape_refl].
  case_bool_decide; [apply same_shape_refl | apply set_in_holders_same_shape].
Qed.

End LightningAttrMore.

Lemma lightning_getattr_precedence_witness :
  let h : gmap nat parsing.Obj :=
    {[ 0%nat := parsing.MkObj parsing.InstanceObj ∅
                  {[ "lr" := parsing.VInt 1; "trainer" := parsing.VRef 1 ]};
       1%nat := parsing.MkObj parsing.InstanceObj ∅ {[ "datamodule" := parsing.VRef 2 ]};
       2%nat := parsing.MkObj parsing.InstanceObj ∅ {[ "lr" := parsing.VInt 5 ]} ]} in
  parsing.lightning_getattr parsing.builtin_attr_sample h (parsing.VRef 0) "lr"
  = read_holder parsing.builtin_attr_sample h (parsing.VRef 2) "lr".
Proof.
  intros h.
  rewrite (lightning_getattr_precedence parsing.builtin_attr_sample h (parsing.VRef 0) "lr"
             [parsing.VRef 0; parsing.VRef 2]); [| vm_compute; reflexivity].
  vm_compute. reflexivity.
Defined.
